(** * diamond_mariokart/play.py : the play-session orchestrator

    A shallow embedding of [src/diamond_mariokart/play.py].  The module is
    glue code: it reads the command line, asks for a model name, resolves
    the artefact paths, picks a device, builds the agent, the world-model
    environment and the play environment, and starts the game.

    Everything the module calls in other packages (argparse, pathlib,
    huggingface_hub, OmegaConf/Hydra, torch, and the sibling modules
    [agent], [envs], [game]) is outside the file.  Those calls are modelled
    as follows:
    - every external call is logged as an [event] of the run's trace;
    - whatever an external call answers is read from a [World] record, so
      a theorem quantified over [World] holds for every behaviour of the
      collaborators;
    - an exception ends the run ([Raise]), keeping the trace up to there. *)

From Stdlib Require Import ZArith String Ascii List Bool Lia.
Import ListNotations.

Local Open Scope string_scope.
Local Open Scope Z_scope.

#[local] Set Warnings "-register-all".

(* ===================================================================== *)
(** ** Exceptions and the run monad *)

Inductive exn : Type :=
| AssertionError
| AttributeError (attr : string)
| TypeError (what : string)
| ValueError (what : string)
| SystemExit (code : Z)
| ExternalError (origin : string).

Inductive result (A : Type) : Type :=
| Ok (a : A)
| Raise (e : exn).
Arguments Ok {A} a.
Arguments Raise {A} e.

(* ===================================================================== *)
(** ** pathlib.PurePosixPath

    A path is its root (the empty string, "/" or "//") and its components.
    Parsing drops empty and "." components; joining with an absolute
    right-hand side discards the left-hand side. *)

Module PurePath.

Fixpoint split_on (sep : ascii) (s : string) : list string :=
  match s with
  | EmptyString => [EmptyString]
  | String c s' =>
      if Ascii.eqb c sep then EmptyString :: split_on sep s'
      else match split_on sep s' with
           | [] => [String c EmptyString]
           | x :: xs => String c x :: xs
           end
  end.

Definition slash : ascii := "/"%char.

Record Path : Type := mkPath { root : string; parts : list string }.

Definition parse_root (s : string) : string :=
  match s with
  | String a (String b (String c _)) =>
      if Ascii.eqb a slash then
        if Ascii.eqb b slash then
          if Ascii.eqb c slash then "/" else "//"
        else "/"
      else ""
  | String a (String b EmptyString) =>
      if Ascii.eqb a slash then
        if Ascii.eqb b slash then "//" else "/"
      else ""
  | String a EmptyString => if Ascii.eqb a slash then "/" else ""
  | EmptyString => ""
  end.

Definition keep_component (c : string) : bool :=
  negb (String.eqb c "" || String.eqb c ".").

(** [Path(s)] *)
Definition of_string (s : string) : Path :=
  {| root := parse_root s;
     parts := filter keep_component (split_on slash s) |}.

(** [p / s] for a string [s] *)
Definition joinpath (p : Path) (s : string) : Path :=
  let q := of_string s in
  if String.eqb (root q) "" then
    {| root := root p; parts := (parts p ++ parts q)%list |}
  else q.

(** [str(p)] *)
Definition to_string (p : Path) : string :=
  match root p, parts p with
  | EmptyString, [] => "."
  | r, ps => r ++ String.concat "/" ps
  end.

Fixpoint parts_eqb (a b : list string) : bool :=
  match a, b with
  | [], [] => true
  | x :: a', y :: b' => String.eqb x y && parts_eqb a' b'
  | _, _ => false
  end.

(** [p == q] for two paths *)
Definition eqb (p q : Path) : bool :=
  String.eqb (root p) (root q) && parts_eqb (parts p) (parts q).

End PurePath.

Abbreviation Path := PurePath.Path.
Notation "p // s" := (PurePath.joinpath p s) (at level 40, left associativity).

(* ===================================================================== *)
(** ** Python values that reach [args.model] *)

Inductive pyval : Type :=
| PyNone
| PyStr (s : string)
| PyPath (p : Path).

(** [a == b].  A path never equals a string: [PurePath.__eq__] answers
    [NotImplemented] for a non-path operand, so does [str.__eq__] for a
    path, and the comparison falls back to identity. *)
Definition py_eq (a b : pyval) : bool :=
  match a, b with
  | PyNone, PyNone => true
  | PyStr s, PyStr t => String.eqb s t
  | PyPath p, PyPath q => PurePath.eqb p q
  | _, _ => false
  end.

(** [v / s]: only a path has a [/] that takes a string. *)
Definition truediv (v : pyval) (s : string) : result Path :=
  match v with
  | PyPath p => Ok (p // s)
  | PyStr _ => Raise (TypeError "unsupported operand type(s) for /: 'str' and 'str'")
  | PyNone => Raise (TypeError "unsupported operand type(s) for /: 'NoneType' and 'str'")
  end.

(* ===================================================================== *)
(** ** OmegaConf documents

    A configuration is a tree; a mapping keeps its keys in order.  Values
    are taken as already resolved (interpolations are not modelled) and
    scalars are integers, strings or null. *)

Inductive node : Type :=
| NNone
| NInt (z : Z)
| NStr (s : string)
| NList (l : list node)
| NDict (d : list (string * node)).

Fixpoint assoc_get (d : list (string * node)) (k : string) : option node :=
  match d with
  | [] => None
  | (k', v) :: d' => if String.eqb k' k then Some v else assoc_get d' k
  end.

Fixpoint assoc_set (d : list (string * node)) (k : string) (v : node)
  : list (string * node) :=
  match d with
  | [] => [(k, v)]
  | (k', v') :: d' =>
      if String.eqb k' k then (k, v) :: d' else (k', v') :: assoc_set d' k v
  end.

(** [c.k] *)
Definition cfg_get (c : node) (k : string) : result node :=
  match c with
  | NDict d =>
      match assoc_get d k with
      | Some v => Ok v
      | None => Raise (AttributeError k)
      end
  | _ => Raise (AttributeError k)
  end.

(** [c.k = v].  A key that is not there yet is added (the struct flag,
    under which OmegaConf refuses a new key, is not modelled). *)
Definition cfg_set (c : node) (k : string) (v : node) : result node :=
  match c with
  | NDict d => Ok (NDict (assoc_set d k v))
  | _ => Raise (AttributeError k)
  end.

(** [n == s] for a configuration value and a string *)
Definition node_eq_str (n : node) (s : string) : bool :=
  match n with
  | NStr t => String.eqb t s
  | _ => false
  end.

(** [max(a, b)] on configuration values: [b] if [b > a], else [a].
    Integers are compared as numbers and strings lexicographically; no
    other pair of these values has an order. *)
Definition py_max (a b : node) : result node :=
  match a, b with
  | NInt x, NInt y => Ok (NInt (if x <? y then y else x))
  | NStr x, NStr y => Ok (NStr (if String.ltb x y then y else x))
  | _, _ => Raise (TypeError "max")
  end.

(* ===================================================================== *)
(** ** torch devices and the objects built by the sibling modules *)

Inductive Device : Type :=
| cuda (index : Z)
| mps
| cpu.

(** [device.type] *)
Definition device_type (d : Device) : string :=
  match d with
  | cuda _ => "cuda"
  | mps => "mps"
  | cpu => "cpu"
  end.

(** A network is an opaque handle. *)
Definition nn_module : Type := nat.

(** [agent.Agent]: the attributes [play.py] reads, and where the module
    lives and in which mode it is. *)
Record Agent : Type := mkAgent {
  denoiser : nn_module;
  upsampler : option nn_module;
  rew_end_model : option nn_module;
  agent_device : Device;
  agent_training : bool
}.

(** [agent.to(device)] and [agent.eval()] return the agent itself. *)
Definition Agent_to (a : Agent) (d : Device) : Agent :=
  {| denoiser := denoiser a; upsampler := upsampler a;
     rew_end_model := rew_end_model a;
     agent_device := d; agent_training := agent_training a |}.

Definition Agent_eval (a : Agent) : Agent :=
  {| denoiser := denoiser a; upsampler := upsampler a;
     rew_end_model := rew_end_model a;
     agent_device := agent_device a; agent_training := false |}.

(** A bound method, possibly wrapped by [torch.compile]. *)
Inductive callable : Type :=
| Method (name : string)
| Compiled (f : callable) (mode : string).

(** [envs.WorldModelEnv]: the constructor's arguments, in the order
    [play.py] passes them, and the two per-step methods it may replace. *)
Record WorldModelEnv : Type := mkWorldModelEnv {
  wm_denoiser : nn_module;
  wm_upsampler : option nn_module;
  wm_rew_end_model : option nn_module;
  wm_spawn_dir : Path;
  wm_num_envs : Z;
  wm_seq_length : node;
  wm_cfg : node;
  return_denoising_trajectory : bool;
  predict_next_obs : callable;
  upsample_next_obs : callable
}.

Definition set_predict_next_obs (e : WorldModelEnv) (f : callable) : WorldModelEnv :=
  {| wm_denoiser := wm_denoiser e; wm_upsampler := wm_upsampler e;
     wm_rew_end_model := wm_rew_end_model e; wm_spawn_dir := wm_spawn_dir e;
     wm_num_envs := wm_num_envs e; wm_seq_length := wm_seq_length e;
     wm_cfg := wm_cfg e;
     return_denoising_trajectory := return_denoising_trajectory e;
     predict_next_obs := f; upsample_next_obs := upsample_next_obs e |}.

Definition set_upsample_next_obs (e : WorldModelEnv) (f : callable) : WorldModelEnv :=
  {| wm_denoiser := wm_denoiser e; wm_upsampler := wm_upsampler e;
     wm_rew_end_model := wm_rew_end_model e; wm_spawn_dir := wm_spawn_dir e;
     wm_num_envs := wm_num_envs e; wm_seq_length := wm_seq_length e;
     wm_cfg := wm_cfg e;
     return_denoising_trajectory := return_denoising_trajectory e;
     predict_next_obs := predict_next_obs e; upsample_next_obs := f |}.

(** [game.PlayEnv]: the constructor's five arguments. *)
Record PlayEnv : Type := mkPlayEnv {
  pe_agent : Agent;
  pe_wm_env : WorldModelEnv;
  pe_record : bool;
  pe_store_denoising_trajectory : bool;
  pe_store_original_obs : bool
}.

(** [game.Game]: the constructor's arguments. *)
Record Game : Type := mkGame {
  game_env : PlayEnv;
  game_size : Z * Z;
  game_mouse_multiplier : Z;
  game_fps : Z;
  game_verbose : bool;
  game_use_colab : bool
}.

(* ===================================================================== *)
(** ** Events and the world *)

Inductive event : Type :=
| EvPrint (s : string)
| EvPrintCfg (c : node)
| EvInput (prompt : string)
| EvSnapshotDownload (repo_id allow_patterns : string)
| EvOmegaConfLoad (p : Path)
| EvCudaIsAvailable
| EvMpsIsAvailable
| EvAgentInit (agent_cfg num_actions : node)
| EvAgentTo (d : Device)
| EvAgentEval
| EvAgentLoad (p : Path)
| EvInstantiate (c : node) (num_batches_to_preload : Z)
| EvWorldModelEnvInit (e : WorldModelEnv)
| EvTorchCompile (f : callable) (mode : string)
| EvPlayEnvInit (e : PlayEnv)
| EvHydraInitialize (version_base config_path : string)
| EvCompose (config_name : string)
| EvGameInit (g : Game)
| EvGameRun.

(** What the collaborators answer. *)
Record World : Type := mkWorld {
  stdin_line : string;
  snapshot_download : string -> string -> result string;
  OmegaConf_load : Path -> result node;
  cuda_is_available : bool;
  mps_is_available : bool;
  Agent_init : node -> node -> result Agent;
  Agent_load : Agent -> Path -> result unit;
  instantiate : node -> Z -> result node;
  WorldModelEnv_init : WorldModelEnv -> result unit;
  hydra_compose : string -> result node;
  Game_run : Game -> result unit
}.

(** A run: the events so far, and a value or the exception that ended it. *)
Definition M (A : Type) : Type := (list event * result A)%type.

Definition ret {A} (a : A) : M A := ([], Ok a).

Definition bind {A B} (m : M A) (k : A -> M B) : M B :=
  match m with
  | (t, Ok a) => let '(t', r) := k a in ((t ++ t')%list, r)
  | (t, Raise e) => (t, Raise e)
  end.

Definition emit (e : event) : M unit := ([e], Ok tt).

Definition lift {A} (r : result A) : M A := ([], r).

(** An external call: log it, then answer what the world answers. *)
Definition call {A} (e : event) (r : result A) : M A := ([e], r).

Definition trace {A} (m : M A) : list event := fst m.
Definition outcome {A} (m : M A) : result A := snd m.

Declare Scope run_scope.
Delimit Scope run_scope with run.
Notation "x <- c ;; k" := (bind c (fun x => k))
  (at level 61, c at next level, right associativity) : run_scope.
Notation "' pat <- c ;; k" := (bind c (fun x => match x with pat => k end))
  (at level 61, pat pattern, c at next level, right associativity) : run_scope.
Notation "c ;; k" := (bind c (fun _ => k))
  (at level 61, right associativity) : run_scope.
Local Open Scope run_scope.

(* ===================================================================== *)
(** ** [parse_args] (lines 20-36)

    [argv] is the command line after the program name.  The model covers
    the option strings as declared (no prefix abbreviation, no
    [--opt=value] form); a valued option takes the next token, and a token
    that starts with "-" counts as a value only when it is a negative
    integer.  [int] accepts an optional sign followed by decimal digits.
    A usage error is [SystemExit(2)]. *)

Record Namespace : Type := mkNamespace {
  record : bool;
  store_denoising_trajectory : bool;
  store_original_obs : bool;
  mouse_multiplier : Z;
  size_multiplier : Z;
  compile : bool;
  colab : bool;
  fps : Z;
  no_header : bool;
  model : pyval
}.

Definition digit_of (c : ascii) : option Z :=
  let n := Z.of_nat (nat_of_ascii c) in
  if (48 <=? n) && (n <=? 57) then Some (n - 48) else None.

Fixpoint digits_value (s : string) (acc : Z) : option Z :=
  match s with
  | EmptyString => Some acc
  | String c s' =>
      match digit_of c with
      | Some d => digits_value s' (10 * acc + d)
      | None => None
      end
  end.

(** [int(s)] *)
Definition py_int (s : string) : option Z :=
  match s with
  | EmptyString => None
  | String c EmptyString => digits_value s 0
  | String c r =>
      if Ascii.eqb c "-" then option_map Z.opp (digits_value r 0)
      else if Ascii.eqb c "+" then digits_value r 0
      else digits_value s 0
  end.

Definition is_argument (tok : string) : bool :=
  match tok with
  | EmptyString => true
  | String c _ =>
      if Ascii.eqb c "-" then
        match py_int tok with Some _ => true | None => false end
      else true
  end.

Definition usage_error {A} : result A := Raise (SystemExit 2).

Section Setters.
Variable ns : Namespace.

Definition with_flags (r sdt soo c col nh : bool) : Namespace :=
  {| record := r; store_denoising_trajectory := sdt;
     store_original_obs := soo;
     mouse_multiplier := mouse_multiplier ns;
     size_multiplier := size_multiplier ns;
     compile := c; colab := col; fps := fps ns; no_header := nh;
     model := model ns |}.

Definition with_values (mm sm f : Z) (m : pyval) : Namespace :=
  {| record := record ns;
     store_denoising_trajectory := store_denoising_trajectory ns;
     store_original_obs := store_original_obs ns;
     mouse_multiplier := mm; size_multiplier := sm;
     compile := compile ns; colab := colab ns; fps := f;
     no_header := no_header ns; model := m |}.

Definition set_record : Namespace :=
  with_flags true (store_denoising_trajectory ns) (store_original_obs ns)
             (compile ns) (colab ns) (no_header ns).
Definition set_store_denoising_trajectory (b : bool) : Namespace :=
  with_flags (record ns) b (store_original_obs ns)
             (compile ns) (colab ns) (no_header ns).
Definition set_store_original_obs : Namespace :=
  with_flags (record ns) (store_denoising_trajectory ns) true
             (compile ns) (colab ns) (no_header ns).
Definition set_compile (b : bool) : Namespace :=
  with_flags (record ns) (store_denoising_trajectory ns)
             (store_original_obs ns) b (colab ns) (no_header ns).
Definition set_colab : Namespace :=
  with_flags (record ns) (store_denoising_trajectory ns)
             (store_original_obs ns) (compile ns) true (no_header ns).
Definition set_no_header : Namespace :=
  with_flags (record ns) (store_denoising_trajectory ns)
             (store_original_obs ns) (compile ns) (colab ns) true.
Definition set_mouse_multiplier (z : Z) : Namespace :=
  with_values z (size_multiplier ns) (fps ns) (model ns).
Definition set_size_multiplier (z : Z) : Namespace :=
  with_values (mouse_multiplier ns) z (fps ns) (model ns).
Definition set_fps (z : Z) : Namespace :=
  with_values (mouse_multiplier ns) (size_multiplier ns) z (model ns).
Definition set_model (m : pyval) : Namespace :=
  with_values (mouse_multiplier ns) (size_multiplier ns) (fps ns) m.
End Setters.

(** The defaults of the [add_argument] calls: [store_true] flags are
    [False], the three integers 10, 2 and 15, and [--model] (no default
    given) is [None]. *)
Definition defaults : Namespace :=
  {| record := false; store_denoising_trajectory := false;
     store_original_obs := false; mouse_multiplier := 10;
     size_multiplier := 2; compile := false; colab := false; fps := 15;
     no_header := false; model := PyNone |}.

(** A [type=int] option *)
Definition int_option (v : string) (k : Z -> result Namespace) : result Namespace :=
  if is_argument v then
    match py_int v with
    | Some z => k z
    | None => usage_error
    end
  else usage_error.

Fixpoint parse_known (argv : list string) (ns : Namespace) : result Namespace :=
  match argv with
  | [] => Ok ns
  | tok :: rest =>
      if (tok =? "-r")%string || (tok =? "--record")%string then
        parse_known rest (set_record ns)
      else if (tok =? "--store-denoising-trajectory")%string then
        parse_known rest (set_store_denoising_trajectory ns true)
      else if (tok =? "--store-original-obs")%string then
        parse_known rest (set_store_original_obs ns)
      else if (tok =? "--compile")%string then
        parse_known rest (set_compile ns true)
      else if (tok =? "--colab")%string then
        parse_known rest (set_colab ns)
      else if (tok =? "--no-header")%string then
        parse_known rest (set_no_header ns)
      else
        match rest with
        | [] => usage_error
        | v :: rest' =>
            if (tok =? "--mouse-multiplier")%string then
              int_option v (fun z => parse_known rest' (set_mouse_multiplier ns z))
            else if (tok =? "--size-multiplier")%string then
              int_option v (fun z => parse_known rest' (set_size_multiplier ns z))
            else if (tok =? "--fps")%string then
              int_option v (fun z => parse_known rest' (set_fps ns z))
            else if (tok =? "--model")%string then
              (* type=Path: the token is converted with Path(...) *)
              if is_argument v then
                parse_known rest' (set_model ns (PyPath (PurePath.of_string v)))
              else usage_error
            else usage_error
        end
  end.

Definition parse_args (argv : list string) : result Namespace :=
  parse_known argv defaults.

(* ===================================================================== *)
(** ** [check_args] (lines 39-42) *)

Definition store_warning : string :=
  "Warning: not in recording mode, ignoring --store* options".

Definition check_args (args : Namespace) : M bool :=
  (if negb (record args)
      && (store_denoising_trajectory args || store_original_obs args)
   then emit (EvPrint store_warning)
   else ret tt) ;;
  ret true.

(* ===================================================================== *)
(** ** [prepare_play_mode] (lines 45-95) *)

(** [c.k1.k2. ... .kn] *)
Fixpoint cfg_path (c : node) (ks : list string) : result node :=
  match ks with
  | [] => Ok c
  | k :: ks' =>
      match cfg_get c k with
      | Ok c' => cfg_path c' ks'
      | Raise e => Raise e
      end
  end.

Definition hf_repo_id : string := "DereWah/diamond-mariokart64".

(** Lines 49-52: where the model bundle is. *)
Definition resolve_path_hf (W : World) (args : Namespace) (model_name : string)
  : M pyval :=
  if py_eq (model args) (PyStr "") || py_eq (model args) PyNone then
    d <- call (EvSnapshotDownload hf_repo_id (model_name ++ "/*"))
              (snapshot_download W hf_repo_id (model_name ++ "/*")) ;;
    ret (PyPath (PurePath.of_string d))
  else
    ret (model args).

(** Lines 61-66: the device. *)
Definition select_device (W : World) : M Device :=
  c <- call EvCudaIsAvailable (Ok (cuda_is_available W)) ;;
  if c then ret (cuda 0)
  else
    m <- call EvMpsIsAvailable (Ok (mps_is_available W)) ;;
    if m then ret mps else ret cpu.

(** Lines 76-78: the context length. *)
Definition context_length (cfg : node) (agent : Agent) : result node :=
  match cfg_path cfg ["agent"; "denoiser"; "inner_model"; "num_steps_conditioning"] with
  | Raise e => Raise e
  | Ok sl =>
      match upsampler agent with
      | Some _ =>
          match cfg_path cfg ["agent"; "upsampler"; "inner_model"; "num_steps_conditioning"] with
          | Raise e => Raise e
          | Ok b => py_max sl b
          end
      | None => Ok sl
      end
  end.

Definition compile_mode : string := "reduce-overhead".

(** Lines 82-85: compilation of the two per-step methods. *)
Definition maybe_compile (device : Device) (args : Namespace) (wm_env : WorldModelEnv)
  : M WorldModelEnv :=
  if (device_type device =? "cuda")%string && compile args then
    emit (EvPrint "Compiling models...") ;;
    emit (EvTorchCompile (predict_next_obs wm_env) compile_mode) ;;
    let wm_env :=
      set_predict_next_obs wm_env (Compiled (predict_next_obs wm_env) compile_mode) in
    emit (EvTorchCompile (upsample_next_obs wm_env) compile_mode) ;;
    ret (set_upsample_next_obs wm_env
           (Compiled (upsample_next_obs wm_env) compile_mode))
  else ret wm_env.

(** The function mutates [cfg] in place; the updated document is returned
    with the play environment.  The [assert] of line 68 is taken as
    active (the interpreter is not run with [-O]). *)
Definition prepare_play_mode (W : World) (cfg : node) (args : Namespace)
  : M (node * PlayEnv) :=
  model_name <- call (EvInput "Model name: ") (Ok (stdin_line W)) ;;
  path_hf <- resolve_path_hf W args model_name ;;
  path_ckpt <- lift (truediv path_hf (model_name ++ "/model/" ++ model_name ++ ".pt")) ;;
  spawn_dir <- lift (truediv path_hf (model_name ++ "/spawn")) ;;
  (* Override config *)
  agent_yaml <- lift (truediv path_hf (model_name ++ "/config/agent/" ++ model_name ++ ".yaml")) ;;
  agent_doc <- call (EvOmegaConfLoad agent_yaml) (OmegaConf_load W agent_yaml) ;;
  cfg <- lift (cfg_set cfg "agent" agent_doc) ;;
  env_yaml <- lift (truediv path_hf (model_name ++ "/config/env/" ++ model_name ++ ".yaml")) ;;
  env_doc <- call (EvOmegaConfLoad env_yaml) (OmegaConf_load W env_yaml) ;;
  cfg <- lift (cfg_set cfg "env" env_doc) ;;
  device <- select_device W ;;
  id <- lift (cfg_path cfg ["env"; "train"; "id"]) ;;
  (if node_eq_str id model_name then ret tt else lift (Raise AssertionError)) ;;
  num_actions <- lift (cfg_path cfg ["env"; "num_actions"]) ;;
  (* Models *)
  cfg_agent <- lift (cfg_get cfg "agent") ;;
  agent <- call (EvAgentInit cfg_agent num_actions) (Agent_init W cfg_agent num_actions) ;;
  emit (EvAgentTo device) ;;
  let agent := Agent_to agent device in
  emit EvAgentEval ;;
  let agent := Agent_eval agent in
  call (EvAgentLoad path_ckpt) (Agent_load W agent path_ckpt) ;;
  (* World model environment *)
  sl <- lift (context_length cfg agent) ;;
  cfg_wm <- lift (cfg_get cfg "world_model_env") ;;
  wm_env_cfg <- call (EvInstantiate cfg_wm 1) (instantiate W cfg_wm 1) ;;
  let wm_env :=
    {| wm_denoiser := denoiser agent; wm_upsampler := upsampler agent;
       wm_rew_end_model := rew_end_model agent; wm_spawn_dir := spawn_dir;
       wm_num_envs := 1; wm_seq_length := sl; wm_cfg := wm_env_cfg;
       return_denoising_trajectory := true;
       predict_next_obs := Method "predict_next_obs";
       upsample_next_obs := Method "upsample_next_obs" |} in
  call (EvWorldModelEnvInit wm_env) (WorldModelEnv_init W wm_env) ;;
  wm_env <- maybe_compile device args wm_env ;;
  let play_env :=
    {| pe_agent := agent; pe_wm_env := wm_env; pe_record := record args;
       pe_store_denoising_trajectory := store_denoising_trajectory args;
       pe_store_original_obs := store_original_obs args |} in
  emit (EvPlayEnvInit play_env) ;;
  ret (cfg, play_env).

(* ===================================================================== *)
(** ** [main] (lines 98-114) *)

(** [x * m] for a configuration value and an integer; only integer
    operands are modelled. *)
Definition node_mul (x : node) (m : Z) : result Z :=
  match x with
  | NInt z => Ok (z * m)
  | _ => Raise (TypeError "*")
  end.

(** Lines 109-110.  An integer is used for both sides; anything else is
    unpacked into [w, h], which is modelled for lists. *)
Definition window_size (size : node) (size_multiplier : Z) : result (Z * Z) :=
  let wh :=
    match size with
    | NInt n => Ok (NInt n, NInt n)
    | NList [a; b] => Ok (a, b)
    | NList _ => Raise (ValueError "unpack")
    | _ => Raise (TypeError "unpack")
    end in
  match wh with
  | Raise e => Raise e
  | Ok (w, h) =>
      match node_mul h size_multiplier with
      | Raise e => Raise e
      | Ok size_h =>
          match node_mul w size_multiplier with
          | Raise e => Raise e
          | Ok size_w => Ok (size_h, size_w)
          end
      end
  end.

(** Lines 105-114: what [main] does once the arguments are accepted. *)
Definition main_body (W : World) (args : Namespace) : M unit :=
  emit (EvHydraInitialize "1.3" "../config") ;;
  cfg <- call (EvCompose "trainer") (hydra_compose W "trainer") ;;
  emit (EvPrintCfg cfg) ;;
  (* window size *)
  size <- lift (cfg_path cfg ["env"; "train"; "size"]) ;;
  ' (size_h, size_w) <- lift (window_size size (size_multiplier args)) ;;
  ' (_, env) <- prepare_play_mode W cfg args ;;
  let game :=
    {| game_env := env; game_size := (size_h, size_w);
       game_mouse_multiplier := mouse_multiplier args; game_fps := fps args;
       game_verbose := negb (no_header args); game_use_colab := colab args |} in
  emit (EvGameInit game) ;;
  call EvGameRun (Game_run W game).

Definition main (W : World) (argv : list string) : M unit :=
  args <- lift (parse_args argv) ;;
  ok <- check_args args ;;
  if negb ok then ret tt
  else main_body W args.

(* ===================================================================== *)
(** ** A concrete world

    A bundle for the model "track-a": an agent document with a denoiser
    (four conditioning steps) and an upsampler (one), and an environment
    document whose training identifier is [id]. *)

Module Demo.

Definition inner (n : Z) : node :=
  NDict [("inner_model", NDict [("num_steps_conditioning", NInt n)])].

Definition agent_doc : node :=
  NDict [("denoiser", inner 4); ("upsampler", inner 1)].

Definition env_doc (id : string) : node :=
  NDict [("train", NDict [("id", NStr id); ("size", NInt 64)]);
         ("num_actions", NInt 5)].

(** The packaged "trainer" configuration, with base size [size]. *)
Definition trainer_items (size : node) : list (string * node) :=
  [("env", NDict [("train", NDict [("id", NStr "base"); ("size", size)])]);
   ("agent", NNone);
   ("world_model_env", NDict [("horizon", NInt 1000)])].

Definition trainer (size : node) : node := NDict (trainer_items size).

Definition has_part (p : Path) (c : string) : bool :=
  existsb (String.eqb c) (PurePath.parts p).

Definition load (id : string) (p : Path) : result node :=
  if has_part p "track-a.yaml" && has_part p "agent" then Ok agent_doc
  else if has_part p "track-a.yaml" && has_part p "env" then Ok (env_doc id)
  else Raise (ExternalError "FileNotFoundError").

Definition new_agent (_ _ : node) : result Agent :=
  Ok {| denoiser := 0%nat; upsampler := Some 1%nat; rew_end_model := Some 2%nat;
        agent_device := cpu; agent_training := true |}.

Definition world (has_cuda has_mps : bool) (id : string) (size : node) : World :=
  {| stdin_line := "track-a";
     snapshot_download := fun _ _ => Ok "/cache/snapshots/0";
     OmegaConf_load := load id;
     cuda_is_available := has_cuda;
     mps_is_available := has_mps;
     Agent_init := new_agent;
     Agent_load := fun _ _ => Ok tt;
     instantiate := fun c _ => Ok c;
     WorldModelEnv_init := fun _ => Ok tt;
     hydra_compose := fun _ => Ok (trainer size);
     Game_run := fun _ => Ok tt |}.

(** A machine without accelerator, one with CUDA, a bundle whose
    environment document names another model, and a trainer configuration
    with a rectangular base size. *)
Definition cpu_world : World := world false false "track-a" (NInt 64).
Definition cuda_world : World := world true false "track-a" (NInt 64).
Definition mismatched_world : World := world false false "track-b" (NInt 64).
Definition wide_world : World :=
  world false false "track-a" (NList [NInt 64; NInt 128]).

(** The bundle directory given with [--model]. *)
Definition models : Path := PurePath.of_string "/models".

(** The command line [--model /models]. *)
Definition local_args : Namespace := set_model defaults (PyPath models).

(** The command line [--model /models --compile]. *)
Definition compile_args : Namespace := set_compile local_args true.

(** The command line [--store-original-obs --model /models]. *)
Definition store_argv : list string :=
  ["--store-original-obs"; "--model"; "/models"].
Definition store_args : Namespace := set_store_original_obs local_args.

(** The command line [--model ""]: what [parse_args] makes of it. *)
Definition empty_model_argv : list string := ["--model"; ""].
Definition empty_model_args : Namespace :=
  set_model defaults (PyPath (PurePath.of_string "")).

(** The command line [--size-multiplier 2 --model /models]. *)
Definition wide_argv : list string :=
  ["--size-multiplier"; "2"; "--model"; "/models"].

End Demo.

(* ===================================================================== *)
(** ** Specifications of runs *)

(** [always P m]: every event of the run satisfies [P], however the run
    ends. *)
Definition always {A} (P : event -> Prop) (m : M A) : Prop :=
  Forall P (trace m).

(** [post m Q]: if the run returns [a] after the events [t], then
    [Q t a]. *)
Definition post {A} (m : M A) (Q : list event -> A -> Prop) : Prop :=
  forall a, outcome m = Ok a -> Q (trace m) a.

(** [agree keep Q m m']: the two runs log the same events, as far as
    [keep] looks, and end alike: with the same exception, or with values
    related by [Q]. *)
Definition ends_alike {A B} (Q : A -> B -> Prop) (r : result A) (r' : result B)
  : Prop :=
  match r, r' with
  | Ok a, Ok b => Q a b
  | Raise e, Raise e' => e = e'
  | _, _ => False
  end.

Definition agree {A B} (keep : event -> bool) (Q : A -> B -> Prop)
    (m : M A) (m' : M B) : Prop :=
  filter keep (trace m) = filter keep (trace m')
  /\ ends_alike Q (outcome m) (outcome m').

Definition is_PlayEnvInit (e : event) : bool :=
  match e with EvPlayEnvInit _ => true | _ => false end.

(* ===================================================================== *)
(** ** Successful runs of [prepare_play_mode], as one rule

    [prepared W cfg args t cfg' pe]: the run returns the play environment
    [pe] and leaves the configuration as [cfg'], after the events [t]. *)

Definition ckpt_file (m : string) : string := m ++ "/model/" ++ m ++ ".pt".
Definition spawn_subdir (m : string) : string := m ++ "/spawn".
Definition agent_yaml_file (m : string) : string :=
  m ++ "/config/agent/" ++ m ++ ".yaml".
Definition env_yaml_file (m : string) : string :=
  m ++ "/config/env/" ++ m ++ ".yaml".

Definition new_wm_env (agent : Agent) (spawn_dir : Path) (sl wm_env_cfg : node)
  : WorldModelEnv :=
  {| wm_denoiser := denoiser agent; wm_upsampler := upsampler agent;
     wm_rew_end_model := rew_end_model agent; wm_spawn_dir := spawn_dir;
     wm_num_envs := 1; wm_seq_length := sl; wm_cfg := wm_env_cfg;
     return_denoising_trajectory := true;
     predict_next_obs := Method "predict_next_obs";
     upsample_next_obs := Method "upsample_next_obs" |}.

Inductive prepared (W : World) (cfg : node) (args : Namespace)
  : list event -> node -> PlayEnv -> Prop :=
| Prepared path_hf agent_doc cfg1 env_doc cfg' device id num_actions
           cfg_agent agent0 sl cfg_wm wm_env_cfg wm_env t :
    let m := stdin_line W in
    let agent := Agent_eval (Agent_to agent0 device) in
    let wm0 := new_wm_env agent (path_hf // spawn_subdir m) sl wm_env_cfg in
    let pe :=
      {| pe_agent := agent; pe_wm_env := wm_env; pe_record := record args;
         pe_store_denoising_trajectory := store_denoising_trajectory args;
         pe_store_original_obs := store_original_obs args |} in
    outcome (resolve_path_hf W args m) = Ok (PyPath path_hf) ->
    OmegaConf_load W (path_hf // agent_yaml_file m) = Ok agent_doc ->
    cfg_set cfg "agent" agent_doc = Ok cfg1 ->
    OmegaConf_load W (path_hf // env_yaml_file m) = Ok env_doc ->
    cfg_set cfg1 "env" env_doc = Ok cfg' ->
    outcome (select_device W) = Ok device ->
    cfg_path cfg' ["env"; "train"; "id"] = Ok id ->
    node_eq_str id m = true ->
    cfg_path cfg' ["env"; "num_actions"] = Ok num_actions ->
    cfg_get cfg' "agent" = Ok cfg_agent ->
    Agent_init W cfg_agent num_actions = Ok agent0 ->
    Agent_load W agent (path_hf // ckpt_file m) = Ok tt ->
    context_length cfg' agent = Ok sl ->
    cfg_get cfg' "world_model_env" = Ok cfg_wm ->
    instantiate W cfg_wm 1 = Ok wm_env_cfg ->
    WorldModelEnv_init W wm0 = Ok tt ->
    outcome (maybe_compile device args wm0) = Ok wm_env ->
    t = (EvInput "Model name: " :: trace (resolve_path_hf W args m)
         ++ [EvOmegaConfLoad (path_hf // agent_yaml_file m);
             EvOmegaConfLoad (path_hf // env_yaml_file m)]
         ++ trace (select_device W)
         ++ [EvAgentInit cfg_agent num_actions; EvAgentTo device; EvAgentEval;
             EvAgentLoad (path_hf // ckpt_file m);
             EvInstantiate cfg_wm 1; EvWorldModelEnvInit wm0]
         ++ trace (maybe_compile device args wm0)
         ++ [EvPlayEnvInit pe])%list ->
    prepared W cfg args t cfg' pe.

(** *** What single events are allowed to be *)

(** No model is created, moved to a device or loaded. *)
Definition no_model_event (e : event) : Prop :=
  match e with
  | EvAgentInit _ _ | EvAgentTo _ | EvAgentEval | EvAgentLoad _ => False
  | _ => True
  end.

(** The agent is moved to [d] and nowhere else. *)
Definition placed_on (d : Device) (e : event) : Prop :=
  match e with
  | EvAgentTo d' => d' = d
  | _ => True
  end.

(** The registry is not contacted, and every file comes from the bundle
    of model [m] under [bundle]. *)
Definition reads_bundle (bundle : Path) (m : string) (e : event) : Prop :=
  match e with
  | EvSnapshotDownload _ _ => False
  | EvOmegaConfLoad p =>
      p = bundle // agent_yaml_file m \/ p = bundle // env_yaml_file m
  | EvAgentLoad p => p = bundle // ckpt_file m
  | EvWorldModelEnvInit w => wm_spawn_dir w = bundle // spawn_subdir m
  | _ => True
  end.

(** A download asks the repository for the subtree of model [m] only. *)
Definition downloads_subtree (m : string) (e : event) : Prop :=
  match e with
  | EvSnapshotDownload repo pat => repo = hf_repo_id /\ pat = m ++ "/*"
  | _ => True
  end.

(** [torch.compile] is called only when [c] holds. *)
Definition compiles_only_if (c : Prop) (e : event) : Prop :=
  match e with
  | EvTorchCompile _ _ => c
  | _ => True
  end.

(** The world environment is built with [return_denoising_trajectory=True]. *)
Definition keeps_trajectory (e : event) : Prop :=
  match e with
  | EvWorldModelEnvInit w => return_denoising_trajectory w = true
  | _ => True
  end.

(** The game is given the size [window_size] computes from the composed
    configuration. *)
Definition sized_by (W : World) (args : Namespace) (e : event) : Prop :=
  match e with
  | EvGameInit g =>
      exists cfg size,
        hydra_compose W "trainer" = Ok cfg
        /\ cfg_path cfg ["env"; "train"; "size"] = Ok size
        /\ window_size size (size_multiplier args) = Ok (game_size g)
  | _ => True
  end.

(** [pe] with the denoising-trajectory flag set to [b]. *)
Definition with_store_denoising_trajectory (pe : PlayEnv) (b : bool) : PlayEnv :=
  {| pe_agent := pe_agent pe; pe_wm_env := pe_wm_env pe;
     pe_record := pe_record pe; pe_store_denoising_trajectory := b;
     pe_store_original_obs := pe_store_original_obs pe |}.

(** The game the run of [main] starts, if it gets that far. *)
Fixpoint started_game (t : list event) : option Game :=
  match t with
  | [] => None
  | EvGameInit g :: _ => Some g
  | _ :: t' => started_game t'
  end.

(* ===================================================================== *)
(** ** The command lines [parse_args] accepts, as rules

    [parses argv ns ns']: reading [argv] from the namespace [ns] ends in
    [ns'].  One rule per option string of the [add_argument] calls. *)

Inductive parses : list string -> Namespace -> Namespace -> Prop :=
| parses_nil ns :
    parses [] ns ns
| parses_r rest ns ns' :
    parses rest (set_record ns) ns' ->
    parses ("-r" :: rest) ns ns'
| parses_record rest ns ns' :
    parses rest (set_record ns) ns' ->
    parses ("--record" :: rest) ns ns'
| parses_store_denoising_trajectory rest ns ns' :
    parses rest (set_store_denoising_trajectory ns true) ns' ->
    parses ("--store-denoising-trajectory" :: rest) ns ns'
| parses_store_original_obs rest ns ns' :
    parses rest (set_store_original_obs ns) ns' ->
    parses ("--store-original-obs" :: rest) ns ns'
| parses_compile rest ns ns' :
    parses rest (set_compile ns true) ns' ->
    parses ("--compile" :: rest) ns ns'
| parses_colab rest ns ns' :
    parses rest (set_colab ns) ns' ->
    parses ("--colab" :: rest) ns ns'
| parses_no_header rest ns ns' :
    parses rest (set_no_header ns) ns' ->
    parses ("--no-header" :: rest) ns ns'
| parses_mouse_multiplier v z rest ns ns' :
    is_argument v = true -> py_int v = Some z ->
    parses rest (set_mouse_multiplier ns z) ns' ->
    parses ("--mouse-multiplier" :: v :: rest) ns ns'
| parses_size_multiplier v z rest ns ns' :
    is_argument v = true -> py_int v = Some z ->
    parses rest (set_size_multiplier ns z) ns' ->
    parses ("--size-multiplier" :: v :: rest) ns ns'
| parses_fps v z rest ns ns' :
    is_argument v = true -> py_int v = Some z ->
    parses rest (set_fps ns z) ns' ->
    parses ("--fps" :: v :: rest) ns ns'
| parses_model v rest ns ns' :
    is_argument v = true ->
    parses rest (set_model ns (PyPath (PurePath.of_string v))) ns' ->
    parses ("--model" :: v :: rest) ns ns'.

(** *** More of what single events are allowed to be *)

(** The play environment is given the three recording flags as parsed. *)
Definition forwards_flags (args : Namespace) (e : event) : Prop :=
  match e with
  | EvPlayEnvInit pe =>
      pe_record pe = record args
      /\ pe_store_denoising_trajectory pe = store_denoising_trajectory args
      /\ pe_store_original_obs pe = store_original_obs args
  | _ => True
  end.

(** Nothing is asked of the user, the registry or the file system, and
    no model is touched. *)
Definition before_model_resolution (e : event) : Prop :=
  match e with
  | EvHydraInitialize _ _ | EvCompose _ | EvPrintCfg _ | EvPrint _ => True
  | _ => False
  end.

(** *** Worlds where something goes wrong *)

Module Faulty.

Definition with_load (W : World) (f : Path -> result node) : World :=
  {| stdin_line := stdin_line W;
     snapshot_download := snapshot_download W;
     OmegaConf_load := f;
     cuda_is_available := cuda_is_available W;
     mps_is_available := mps_is_available W;
     Agent_init := Agent_init W;
     Agent_load := Agent_load W;
     instantiate := instantiate W;
     WorldModelEnv_init := WorldModelEnv_init W;
     hydra_compose := hydra_compose W;
     Game_run := Game_run W |}.

Definition with_download (W : World) (f : string -> string -> result string)
  : World :=
  {| stdin_line := stdin_line W;
     snapshot_download := f;
     OmegaConf_load := OmegaConf_load W;
     cuda_is_available := cuda_is_available W;
     mps_is_available := mps_is_available W;
     Agent_init := Agent_init W;
     Agent_load := Agent_load W;
     instantiate := instantiate W;
     WorldModelEnv_init := WorldModelEnv_init W;
     hydra_compose := hydra_compose W;
     Game_run := Game_run W |}.

(** The registry cannot be reached. *)
Definition offline_world : World :=
  with_download Demo.cpu_world (fun _ _ => Raise (ExternalError "ConnectionError")).

(** No file can be read. *)
Definition empty_disk_world : World :=
  with_load Demo.cpu_world (fun _ => Raise (ExternalError "FileNotFoundError")).

(** An environment document without [train.id], and one whose
    [train.id] is the integer 7. *)
Definition env_doc_without_id : node :=
  NDict [("train", NDict [("size", NInt 64)]); ("num_actions", NInt 5)].

Definition env_doc_with_number : node :=
  NDict [("train", NDict [("id", NInt 7); ("size", NInt 64)]);
         ("num_actions", NInt 5)].

Definition load_env (env_doc : node) (p : Path) : result node :=
  if Demo.has_part p "agent" then Ok Demo.agent_doc else Ok env_doc.

Definition no_id_world : World :=
  with_load Demo.cpu_world (load_env env_doc_without_id).

Definition number_id_world : World :=
  with_load Demo.cpu_world (load_env env_doc_with_number).

(** A trainer configuration whose base size is a list of one element. *)
Definition short_size_world : World :=
  Demo.world false false "track-a" (NList [NInt 64]).

End Faulty.

(** *** Other bundles and other names *)

Module Bundles.

Definition with_stdin (W : World) (line : string) : World :=
  {| stdin_line := line;
     snapshot_download := snapshot_download W;
     OmegaConf_load := OmegaConf_load W;
     cuda_is_available := cuda_is_available W;
     mps_is_available := mps_is_available W;
     Agent_init := Agent_init W;
     Agent_load := Agent_load W;
     instantiate := instantiate W;
     WorldModelEnv_init := WorldModelEnv_init W;
     hydra_compose := hydra_compose W;
     Game_run := Game_run W |}.

Definition with_agent (W : World) (f : node -> node -> result Agent) : World :=
  {| stdin_line := stdin_line W;
     snapshot_download := snapshot_download W;
     OmegaConf_load := OmegaConf_load W;
     cuda_is_available := cuda_is_available W;
     mps_is_available := mps_is_available W;
     Agent_init := f;
     Agent_load := Agent_load W;
     instantiate := instantiate W;
     WorldModelEnv_init := WorldModelEnv_init W;
     hydra_compose := hydra_compose W;
     Game_run := Game_run W |}.

(** An agent document whose upsampler looks further back (4) than its
    denoiser (1). *)
Definition long_upsampler_doc : node :=
  NDict [("denoiser", Demo.inner 1); ("upsampler", Demo.inner 4)].

Definition load_docs (agent_doc env_doc : node) (p : Path) : result node :=
  if Demo.has_part p "agent" then Ok agent_doc else Ok env_doc.

Definition long_upsampler_world : World :=
  Faulty.with_load Demo.cpu_world
    (load_docs long_upsampler_doc (Demo.env_doc "track-a")).

(** An agent document without upsampler, and the agent built from it. *)
Definition denoiser_only_doc : node :=
  NDict [("denoiser", Demo.inner 4); ("upsampler", NNone)].

Definition denoiser_only_agent : Agent :=
  {| denoiser := 0%nat; upsampler := None; rew_end_model := Some 2%nat;
     agent_device := cpu; agent_training := true |}.

Definition denoiser_only_world : World :=
  with_agent
    (Faulty.with_load Demo.cpu_world
       (load_docs denoiser_only_doc (Demo.env_doc "track-a")))
    (fun _ _ => Ok denoiser_only_agent).

(** The name "/x" is typed at the prompt; the bundle of that name exists
    wherever it is looked for. *)
Definition absolute_name_world : World :=
  with_stdin
    (Faulty.with_load Demo.cpu_world
       (load_docs Demo.agent_doc (Demo.env_doc "/x")))
    "/x".

End Bundles.

(* ===================================================================== *)
(** ** Reasoning about runs *)

Section RunLogic.
Context {A B : Type}.
Implicit Types (m : M A) (k : A -> M B).

Lemma bind_ok m k a :
  outcome m = Ok a ->
  bind m k = ((trace m ++ trace (k a))%list, outcome (k a)).
Proof.
  destruct m as [t r]; simpl; intros ->.
  unfold trace, outcome; destruct (k a); reflexivity.
Qed.

Lemma bind_raise m k e :
  outcome m = Raise e -> bind m k = (trace m, Raise e).
Proof. destruct m as [t r]; simpl; intros ->; reflexivity. Qed.

Lemma bind_ok_inv m k b :
  outcome (bind m k) = Ok b ->
  exists a, outcome m = Ok a /\ outcome (k a) = Ok b /\
            trace (bind m k) = (trace m ++ trace (k a))%list.
Proof.
  destruct m as [t [a | e]]; simpl; [ | discriminate ].
  destruct (k a) as [t' r] eqn:E; simpl; intros ->.
  exists a; rewrite E; auto.
Qed.

(** Running a bind whose first part returns. *)
Lemma bind_eq m k a t T r :
  outcome m = Ok a -> k a = (t, r) -> T = (trace m ++ t)%list ->
  bind m k = (T, r).
Proof.
  intros Hm Hk ->; rewrite (bind_ok _ _ _ Hm), Hk; reflexivity.
Qed.
End RunLogic.

Section Rules.
Context {A B : Type}.
Variable P : event -> Prop.

Lemma always_ret (a : A) : always P (ret a).
Proof. constructor. Qed.

Lemma always_lift (r : result A) : always P (lift r).
Proof. constructor. Qed.

Lemma always_emit e : P e -> always P (emit e).
Proof. intros; repeat constructor; assumption. Qed.

Lemma always_call e (r : result A) : P e -> always P (call e r).
Proof. intros; repeat constructor; assumption. Qed.

Lemma always_bind (m : M A) (k : A -> M B) :
  always P m ->
  (forall a, outcome m = Ok a -> always P (k a)) ->
  always P (bind m k).
Proof.
  unfold always; intros Hm Hk.
  destruct (outcome m) as [a | e] eqn:E.
  - rewrite (bind_ok _ _ _ E); simpl.
    apply Forall_app; split; [ assumption | apply Hk; reflexivity ].
  - rewrite (bind_raise _ _ _ E); assumption.
Qed.

Lemma post_ret (a : A) (Q : list event -> A -> Prop) :
  Q [] a -> post (ret a) Q.
Proof. intros H x [= <-]; exact H. Qed.

Lemma post_lift (r : result A) (Q : list event -> A -> Prop) :
  (forall a, r = Ok a -> Q [] a) -> post (lift r) Q.
Proof. intros H x E; apply H; exact E. Qed.

Lemma post_call e (r : result A) (Q : list event -> A -> Prop) :
  (forall a, r = Ok a -> Q [e] a) -> post (call e r) Q.
Proof. intros H x E; apply H; exact E. Qed.

Lemma post_bind (m : M A) (k : A -> M B) (Q : list event -> B -> Prop) :
  post m (fun t a => post (k a) (fun t' b => Q (t ++ t')%list b)) ->
  post (bind m k) Q.
Proof.
  intros H b E.
  destruct (bind_ok_inv _ _ _ E) as (a & Ha & Hb & ->).
  exact (H a Ha b Hb).
Qed.
End Rules.

Lemma post_emit {B} e (k : unit -> M B) (Q : list event -> B -> Prop) :
  post (k tt) (fun t b => Q (e :: t) b) -> post (bind (emit e) k) Q.
Proof.
  intros H; apply post_bind; intros [] _; exact H.
Qed.

Lemma always_In {A} (P : event -> Prop) (m : M A) e :
  always P m -> In e (trace m) -> P e.
Proof. unfold always; rewrite Forall_forall; auto. Qed.

(** Two runs that start with the same step. *)
Lemma agree_bind {A B C} keep (Q : B -> C -> Prop)
    (m : M A) (k : A -> M B) (k' : A -> M C) :
  (forall a, outcome m = Ok a -> agree keep Q (k a) (k' a)) ->
  agree keep Q (bind m k) (bind m k').
Proof.
  intros H; case_eq (outcome m); [ intros a E | intros e E ].
  - destruct (H a E) as [Ht Ho].
    rewrite !(bind_ok _ _ _ E); split; simpl; [ | exact Ho ].
    rewrite !filter_app, Ht; reflexivity.
  - rewrite !(bind_raise _ _ _ E); split; reflexivity.
Qed.

Lemma agree_refl {A} keep (Q : A -> A -> Prop) (m : M A) :
  (forall a, Q a a) -> agree keep Q m m.
Proof.
  intros H; split; [ reflexivity | ].
  unfold ends_alike; destruct (outcome m); auto.
Qed.

(** Agreement on every event and on the value is equality. *)
Lemma agree_eq {A} (m m' : M A) :
  agree (fun _ => true) eq m m' -> m = m'.
Proof.
  destruct m as [t r], m' as [t' r']; unfold agree, ends_alike; simpl.
  intros [Ht Ho].
  assert (Hid : forall l : list event, filter (fun _ => true) l = l)
    by (induction l; simpl; congruence).
  rewrite !Hid in Ht; subst.
  destruct r, r'; congruence || contradiction.
Qed.

Ltac always_step :=
  lazymatch goal with
  | |- always _ (bind _ _) => apply always_bind; [ | intros ? ? ]
  | |- always _ (ret _) => apply always_ret
  | |- always _ (lift _) => apply always_lift
  | |- always _ (emit _) => apply always_emit
  | |- always _ (call _ _) => apply always_call
  | |- always _ (if ?c then _ else _) => destruct c eqn:?
  | |- always _ (match ?x with (_, _) => _ end) => destruct x
  | |- always _ (resolve_path_hf _ _ _) => unfold resolve_path_hf
  | |- always _ (select_device _) => unfold select_device
  | |- always _ (maybe_compile _ _ _) => unfold maybe_compile
  end.

Ltac post_step :=
  lazymatch goal with
  | |- post (bind (emit _) _) _ => apply post_emit
  | |- post (bind (call _ _) _) _ =>
      apply post_bind; apply post_call; intros ? ?
  | |- post (bind (lift _) _) _ =>
      apply post_bind; apply post_lift; intros ? ?
  | |- post (bind _ _) _ => apply post_bind; intros ? ?
  | |- post (ret _) _ => apply post_ret
  end.

(* ===================================================================== *)
(** ** Device selection (lines 61-66) *)

Lemma select_device_run W :
  select_device W =
    (if cuda_is_available W then ([EvCudaIsAvailable], Ok (cuda 0))
     else if mps_is_available W
          then ([EvCudaIsAvailable; EvMpsIsAvailable], Ok mps)
          else ([EvCudaIsAvailable; EvMpsIsAvailable], Ok cpu)).
Proof.
  unfold select_device, call, bind, ret.
  destruct (cuda_is_available W); [ reflexivity | ].
  destruct (mps_is_available W); reflexivity.
Qed.

Lemma select_device_total W : exists d, outcome (select_device W) = Ok d.
Proof.
  rewrite select_device_run.
  destruct (cuda_is_available W), (mps_is_available W); simpl; eauto.
Qed.

Lemma select_device_cuda W d :
  outcome (select_device W) = Ok d ->
  (device_type d =? "cuda")%string = cuda_is_available W.
Proof.
  rewrite select_device_run.
  destruct (cuda_is_available W), (mps_is_available W); simpl;
    intros [= <-]; reflexivity.
Qed.

(** The device the agent is moved to is the selected one. *)
Lemma agent_placed_on_selected W cfg args d :
  outcome (select_device W) = Ok d ->
  always (placed_on d) (prepare_play_mode W cfg args).
Proof.
  intros Hd; unfold prepare_play_mode.
  repeat (always_step; try exact I).
  simpl; congruence.
Qed.

(** C4.  The probes are made in the order CUDA, MPS; the first available
    backend is returned, the CPU otherwise; a device is always returned,
    and it is the CPU exactly when neither CUDA nor MPS is available.
    The agent of [prepare_play_mode] is moved to that device only. *)
Theorem select_device_priority (W : World) :
  select_device W =
    (if cuda_is_available W then ([EvCudaIsAvailable], Ok (cuda 0))
     else if mps_is_available W
          then ([EvCudaIsAvailable; EvMpsIsAvailable], Ok mps)
          else ([EvCudaIsAvailable; EvMpsIsAvailable], Ok cpu))
  /\ exists d,
       outcome (select_device W) = Ok d
       /\ (d = cpu <->
           cuda_is_available W = false /\ mps_is_available W = false)
       /\ forall cfg args, always (placed_on d) (prepare_play_mode W cfg args).
Proof.
  split; [ apply select_device_run | ].
  destruct (select_device_total W) as [d Hd]; exists d.
  split; [ exact Hd | ].
  split; [ | intros; apply agent_placed_on_selected; exact Hd ].
  rewrite select_device_run in Hd.
  destruct (cuda_is_available W), (mps_is_available W); simpl in Hd;
    injection Hd as <-; split; (intros [? ?] || intros ?);
    congruence || auto.
Qed.

(* ===================================================================== *)
(** ** Argument check and the guard of [main] (lines 39-42, 100-103) *)

Lemma check_args_run args :
  check_args args =
    (if negb (record args)
        && (store_denoising_trajectory args || store_original_obs args)
     then [EvPrint store_warning] else [],
     Ok true).
Proof.
  unfold check_args.
  destruct (negb (record args)
            && (store_denoising_trajectory args || store_original_obs args));
    reflexivity.
Qed.

Lemma main_run W argv :
  main W argv =
    match parse_args argv with
    | Ok args =>
        ((trace (check_args args) ++ trace (main_body W args))%list,
         outcome (main_body W args))
    | Raise e => ([], Raise e)
    end.
Proof.
  unfold main, lift.
  destruct (parse_args argv) as [args | e]; [ | reflexivity ].
  cbn [bind app fst snd].
  rewrite check_args_run; cbn [bind negb app fst snd trace outcome].
  destruct (main_body W args); reflexivity.
Qed.

Lemma trace_bind_emit {B} e (k : unit -> M B) :
  trace (bind (emit e) k) = e :: trace (k tt).
Proof. rewrite (bind_ok (emit e) k tt eq_refl); reflexivity. Qed.

Lemma trace_bind_call {A B} e (r : result A) (k : A -> M B) :
  trace (bind (call e r) k)
  = e :: match r with Ok a => trace (k a) | Raise _ => [] end.
Proof.
  destruct r as [a | x].
  - rewrite (bind_ok (call e (Ok a)) k a eq_refl); reflexivity.
  - reflexivity.
Qed.

Lemma main_body_starts W args :
  exists t,
    trace (main_body W args)
    = EvHydraInitialize "1.3" "../config" :: EvCompose "trainer" :: t.
Proof.
  unfold main_body; rewrite trace_bind_emit, trace_bind_call; eauto.
Qed.

(** C10.  [check_args] returns [True] for every namespace, printing at
    most the one warning; so [main], once the arguments are parsed, always
    goes on to its body (Hydra initialisation first): the early return
    after the check is never taken. *)
Theorem check_args_always_true (args : Namespace) :
  outcome (check_args args) = Ok true
  /\ (trace (check_args args) = []
      \/ trace (check_args args) = [EvPrint store_warning])
  /\ forall W argv,
       parse_args argv = Ok args ->
       main W argv
       = ((trace (check_args args) ++ trace (main_body W args))%list,
          outcome (main_body W args))
       /\ In (EvHydraInitialize "1.3" "../config") (trace (main W argv)).
Proof.
  rewrite check_args_run; cbn [trace outcome fst snd].
  split; [ reflexivity | split ].
  - destruct (negb _ && _); auto.
  - intros W argv Hp.
    rewrite main_run, Hp, check_args_run; cbn [trace outcome fst snd].
    split; [ reflexivity | ].
    destruct (main_body_starts W args) as [t Ht].
    rewrite Ht; apply in_or_app; right; left; reflexivity.
Qed.

(** With the default command line the check passes silently and [main]
    goes on to its body. *)
Lemma check_args_always_true_witness :
  parse_args [] = Ok defaults
  /\ check_args defaults = ([], Ok true)
  /\ In (EvHydraInitialize "1.3" "../config")
        (trace (main Demo.cpu_world [])).
Proof.
  split; [ reflexivity | split; [ reflexivity | ] ].
  exact (proj2 (proj2 (proj2 (check_args_always_true defaults))
                  Demo.cpu_world [] eq_refl)).
Defined.

(** C8.  With recording off and a retention flag set, [check_args] prints
    the warning and returns [True], and [main] goes on: the warning is
    followed by the Hydra initialisation and the composition of the
    configuration, and the rest of the run is that of [main_body]. *)
Theorem store_flags_warn_and_continue (W : World) (argv : list string)
    (args : Namespace) :
  parse_args argv = Ok args ->
  record args = false ->
  store_denoising_trajectory args || store_original_obs args = true ->
  check_args args = ([EvPrint store_warning], Ok true)
  /\ main W argv
     = (EvPrint store_warning :: trace (main_body W args),
        outcome (main_body W args))
  /\ exists t,
       trace (main W argv)
       = EvPrint store_warning :: EvHydraInitialize "1.3" "../config"
           :: EvCompose "trainer" :: t.
Proof.
  intros Hp Hr Hs.
  assert (Hc : check_args args = ([EvPrint store_warning], Ok true))
    by (rewrite check_args_run, Hr, Hs; reflexivity).
  split; [ exact Hc | ].
  rewrite main_run, Hp, Hc; cbn [trace outcome fst snd app].
  split; [ reflexivity | ].
  destruct (main_body_starts W args) as [t Ht].
  rewrite Ht; eauto.
Qed.

(** On the demonstration bundle, [--store-original-obs] without [-r] warns
    and the session is started all the same. *)
Lemma store_flags_warn_and_continue_witness :
  (parse_args Demo.store_argv = Ok Demo.store_args
   /\ record Demo.store_args = false
   /\ store_original_obs Demo.store_args = true)
  /\ (exists t,
        trace (main Demo.cpu_world Demo.store_argv)
        = EvPrint store_warning :: EvHydraInitialize "1.3" "../config"
            :: EvCompose "trainer" :: t)
  /\ outcome (main Demo.cpu_world Demo.store_argv) = Ok tt.
Proof.
  split; [ repeat split | ].
  split; [ | vm_compute; reflexivity ].
  refine (proj2 (proj2 (store_flags_warn_and_continue
    Demo.cpu_world Demo.store_argv Demo.store_args _ _ _)));
    reflexivity.
Defined.

(* ===================================================================== *)
(** ** Window size (lines 108-113) *)

Lemma window_size_int n m : window_size (NInt n) m = Ok (n * m, n * m).
Proof. reflexivity. Qed.

(** A pair is unpacked as [w, h = pair]; the game is given [(h*m, w*m)]. *)
Lemma window_size_pair a b m :
  window_size (NList [NInt a; NInt b]) m = Ok (b * m, a * m).
Proof. reflexivity. Qed.

Lemma game_sized_by_window_size W args :
  always (sized_by W args) (main_body W args).
Proof.
  unfold main_body.
  repeat (always_step; try exact I).
  - unfold prepare_play_mode; repeat (always_step; try exact I).
  - exists a0, a2; auto.
Qed.

(** C3, as the code has it.  The base size times the multiplier: an
    integer [n] gives the square [(n*m, n*m)], so 64 with multiplier 3
    gives (192, 192); a pair [(a, b)] is read as (width, height) and the
    game is given [(size_h, size_w) = (b*m, a*m)], so (64, 128) with
    multiplier 2 gives (256, 128).  The size the game is constructed with
    is the one computed from the composed configuration's
    [env.train.size] and [--size-multiplier]. *)
Theorem window_size_scaled (W : World) (args : Namespace) :
  (forall n m, window_size (NInt n) m = Ok (n * m, n * m))
  /\ (forall a b m, window_size (NList [NInt a; NInt b]) m = Ok (b * m, a * m))
  /\ window_size (NInt 64) 3 = Ok (192, 192)
  /\ window_size (NList [NInt 64; NInt 128]) 2 = Ok (256, 128)
  /\ always (sized_by W args) (main_body W args).
Proof.
  repeat split; try reflexivity.
  apply game_sized_by_window_size.
Qed.

(** C3, as the spec states it, fails for the pair: with base size
    (64, 128) and multiplier 2 the game is given (256, 128), not
    (128, 256). *)
Lemma window_size_pair_is_swapped :
  window_size (NList [NInt 64; NInt 128]) 2 <> Ok (128, 256)
  /\ option_map game_size
       (started_game (trace (main Demo.wide_world Demo.wide_argv)))
     = Some (256, 128)
  /\ ~ (window_size (NInt 64) 3 = Ok (192, 192)
        /\ window_size (NList [NInt 64; NInt 128]) 2 = Ok (128, 256)).
Proof.
  split; [ discriminate | ].
  split; [ vm_compute; reflexivity | ].
  intros [_ H]; discriminate H.
Qed.

(* ===================================================================== *)
(** ** Successful runs of [prepare_play_mode] *)

Lemma truediv_ok_inv v s p :
  truediv v s = Ok p -> exists q, v = PyPath q /\ p = q // s.
Proof. destruct v; simpl; intros [=]; subst; eauto. Qed.

(** A run that returns is an instance of the rule [Prepared]. *)
Lemma prepare_play_mode_prepared W cfg args :
  post (prepare_play_mode W cfg args)
       (fun t r => prepared W cfg args t (fst r) (snd r)).
Proof.
  unfold prepare_play_mode.
  repeat post_step.
  repeat match goal with
         | H : Ok _ = Ok _ |- _ => injection H as <-
         | H : truediv (PyPath _) _ = Ok _ |- _ => injection H as <-
         | H : truediv _ _ = Ok _ |- _ =>
             apply truediv_ok_inv in H as (? & -> & ->)
         | H : outcome (if ?c then _ else _) = Ok _ |- _ =>
             destruct c eqn:?; [ clear H | discriminate H ]
         | u : unit |- _ => destruct u
         end.
  cbn [fst snd app].
  eapply Prepared; try eassumption.
  reflexivity.
Qed.

Lemma prepare_play_mode_ok_inv W cfg args cfg' pe :
  outcome (prepare_play_mode W cfg args) = Ok (cfg', pe) ->
  prepared W cfg args (trace (prepare_play_mode W cfg args)) cfg' pe.
Proof. intros H; exact (prepare_play_mode_prepared W cfg args _ H). Qed.

(** The rule [Prepared] is exact: what it describes is what the function
    does. *)
Lemma prepared_run W cfg args t cfg' pe :
  prepared W cfg args t cfg' pe ->
  prepare_play_mode W cfg args = (t, Ok (cfg', pe)).
Proof.
  intros Hp; destruct Hp.
  assert (exists T, prepare_play_mode W cfg args = (T, Ok (cfg', pe))
                    /\ T = t) as (T & -> & ->); [ | reflexivity ].
  eexists; split.
  - unfold prepare_play_mode.
    repeat (eapply bind_eq;
            [ first [ eassumption | reflexivity ] | cbv beta | ]).
    all: try reflexivity.
    unfold m in H6; rewrite H6.
    repeat (eapply bind_eq;
            [ first [ eassumption | reflexivity ] | cbv beta | ]).
    all: reflexivity.
  - subst t; cbn [trace fst app emit call ret lift].
    reflexivity.
Qed.

(** What [maybe_compile] returns and logs. *)
Lemma maybe_compile_run device args wm :
  maybe_compile device args wm =
    if (device_type device =? "cuda")%string && compile args then
      ([EvPrint "Compiling models...";
        EvTorchCompile (predict_next_obs wm) compile_mode;
        EvTorchCompile (upsample_next_obs wm) compile_mode],
       Ok (set_upsample_next_obs
             (set_predict_next_obs wm
                (Compiled (predict_next_obs wm) compile_mode))
             (Compiled (upsample_next_obs wm) compile_mode)))
    else ([], Ok wm).
Proof.
  unfold maybe_compile.
  destruct ((device_type device =? "cuda")%string && compile args);
    reflexivity.
Qed.

(** [maybe_compile] only touches the two per-step methods. *)
Lemma maybe_compile_frame device args wm wm' :
  outcome (maybe_compile device args wm) = Ok wm' ->
  wm_seq_length wm' = wm_seq_length wm
  /\ wm_spawn_dir wm' = wm_spawn_dir wm
  /\ return_denoising_trajectory wm' = return_denoising_trajectory wm.
Proof.
  rewrite maybe_compile_run.
  destruct (_ && _); simpl; intros [= <-]; auto.
Qed.

(* ===================================================================== *)
(** ** Context length (lines 76-80) *)

Lemma py_max_int a b : py_max (NInt a) (NInt b) = Ok (NInt (Z.max a b)).
Proof.
  unfold py_max; do 2 f_equal.
  destruct (Z.ltb_spec a b); lia.
Qed.

Lemma context_length_without_upsampler cfg agent a :
  cfg_path cfg ["agent"; "denoiser"; "inner_model"; "num_steps_conditioning"]
  = Ok a ->
  upsampler agent = None ->
  context_length cfg agent = Ok a.
Proof. unfold context_length; intros -> ->; reflexivity. Qed.

Lemma context_length_with_upsampler cfg agent a b :
  cfg_path cfg ["agent"; "denoiser"; "inner_model"; "num_steps_conditioning"]
  = Ok (NInt a) ->
  cfg_path cfg ["agent"; "upsampler"; "inner_model"; "num_steps_conditioning"]
  = Ok (NInt b) ->
  upsampler agent <> None ->
  context_length cfg agent = Ok (NInt (Z.max a b)).
Proof.
  unfold context_length; intros -> -> H.
  destruct (upsampler agent); [ apply py_max_int | congruence ].
Qed.

(** The three sub-steps log no construction of a world environment. *)
Lemma resolve_path_hf_trace W args m :
  trace (resolve_path_hf W args m) = []
  \/ trace (resolve_path_hf W args m)
     = [EvSnapshotDownload hf_repo_id (m ++ "/*")].
Proof.
  unfold resolve_path_hf.
  destruct (py_eq _ _ || py_eq _ _); [ | left; reflexivity ].
  right; rewrite trace_bind_call.
  destruct (snapshot_download W _ _); reflexivity.
Qed.

Lemma world_env_built_once W cfg args t cfg' pe :
  prepared W cfg args t cfg' pe ->
  exists wm,
    In (EvWorldModelEnvInit wm) t
    /\ (forall wm', In (EvWorldModelEnvInit wm') t -> wm' = wm)
    /\ wm_seq_length wm = wm_seq_length (pe_wm_env pe)
    /\ wm_spawn_dir wm = wm_spawn_dir (pe_wm_env pe)
    /\ wm_upsampler wm = upsampler (pe_agent pe)
    /\ context_length cfg' (pe_agent pe) = Ok (wm_seq_length wm).
Proof.
  intros Hp; destruct Hp.
  destruct (maybe_compile_frame _ _ _ _ H15) as (Hsl & Hsp & _).
  exists wm0; subst t; split; [ | split ].
  - right; apply in_or_app; right.
    apply in_or_app; right.
    apply in_or_app; right.
    apply in_or_app; left; simpl; auto 10.
  - intros wm' Hin.
    rewrite select_device_run, maybe_compile_run in Hin.
    destruct (resolve_path_hf_trace W args m) as [E | E]; rewrite E in Hin;
      destruct (cuda_is_available W), (mps_is_available W),
               ((device_type device =? "cuda")%string && compile args);
      simpl in Hin;
      repeat (destruct Hin as [Hin | Hin];
              [ try discriminate Hin; injection Hin as <-; reflexivity | ]);
      contradiction.
  - simpl; rewrite Hsl, Hsp; auto.
Qed.

(* ===================================================================== *)
(** ** Compilation (lines 82-85) *)

(** [torch.compile] is called only with [--compile] on a CUDA machine. *)
Lemma compile_needs_cuda_and_flag W cfg args :
  always (compiles_only_if
            (cuda_is_available W = true /\ compile args = true))
         (prepare_play_mode W cfg args).
Proof.
  unfold prepare_play_mode.
  repeat (always_step; try exact I).
  all: simpl;
    match goal with
    | H : (_ =? _)%string && _ = true |- _ =>
        apply andb_prop in H as [Hd Hc]
    end;
    split; [ | exact Hc ];
    erewrite <- select_device_cuda; eassumption.
Qed.

(** Without CUDA the [--compile] flag changes nothing at all. *)
Lemma maybe_compile_off_cuda W device args wm :
  cuda_is_available W = false ->
  outcome (select_device W) = Ok device ->
  maybe_compile device args wm = ([], Ok wm).
Proof.
  intros Hcuda Hd; rewrite maybe_compile_run.
  rewrite (select_device_cuda _ _ Hd), Hcuda; reflexivity.
Qed.

Lemma compile_flag_inert_off_cuda W cfg args b :
  cuda_is_available W = false ->
  prepare_play_mode W cfg (set_compile args b) = prepare_play_mode W cfg args.
Proof.
  intros Hcuda; apply agree_eq.
  unfold prepare_play_mode.
  repeat first
    [ apply agree_bind; intros ? ?
    | match goal with
      | |- agree _ _ (bind (maybe_compile ?d _ ?w) _) _ =>
          replace (maybe_compile d (set_compile args b) w)
            with (maybe_compile d args w)
      end ].
  - apply agree_refl; reflexivity.
  - rewrite !(maybe_compile_off_cuda W) by assumption; reflexivity.
Qed.

(** C7.  [torch.compile] is called only when [--compile] is given and
    the selected device is of type "cuda".  On a machine without CUDA the
    run with [--compile] is the run without it: same events, same
    outcome.  In a run that returns, the two per-step methods of the world
    environment are the compiled wrappers (mode "reduce-overhead") when
    [--compile] is given and the device type is "cuda", and the plain
    methods otherwise. *)
Theorem compile_iff_cuda_and_flag (W : World) (cfg : node) (args : Namespace) :
  always (compiles_only_if
            (cuda_is_available W = true /\ compile args = true))
         (prepare_play_mode W cfg args)
  /\ (cuda_is_available W = false ->
      prepare_play_mode W cfg (set_compile args true)
      = prepare_play_mode W cfg (set_compile args false))
  /\ forall cfg' pe,
       outcome (prepare_play_mode W cfg args) = Ok (cfg', pe) ->
       exists device,
         outcome (select_device W) = Ok device
         /\ agent_device (pe_agent pe) = device
         /\ if (device_type device =? "cuda")%string && compile args then
              predict_next_obs (pe_wm_env pe)
              = Compiled (Method "predict_next_obs") "reduce-overhead"
              /\ upsample_next_obs (pe_wm_env pe)
                 = Compiled (Method "upsample_next_obs") "reduce-overhead"
              /\ In (EvTorchCompile (Method "predict_next_obs") "reduce-overhead")
                    (trace (prepare_play_mode W cfg args))
              /\ In (EvTorchCompile (Method "upsample_next_obs") "reduce-overhead")
                    (trace (prepare_play_mode W cfg args))
            else
              predict_next_obs (pe_wm_env pe) = Method "predict_next_obs"
              /\ upsample_next_obs (pe_wm_env pe) = Method "upsample_next_obs".
Proof.
  split; [ apply compile_needs_cuda_and_flag | ].
  split.
  { intros Hcuda; rewrite !compile_flag_inert_off_cuda by assumption.
    reflexivity. }
  intros cfg' pe Hrun.
  destruct (prepare_play_mode_ok_inv _ _ _ _ _ Hrun).
  exists device; split; [ assumption | ].
  split; [ reflexivity | ].
  rewrite maybe_compile_run in *.
  destruct ((device_type device =? "cuda")%string && compile args);
    simpl in H15; injection H15 as <-; simpl.
  - repeat split; subst t.
    + right; apply in_or_app; right.
      apply in_or_app; right. apply in_or_app; right.
      apply in_or_app; right. simpl; auto.
    + right; apply in_or_app; right.
      apply in_or_app; right. apply in_or_app; right.
      apply in_or_app; right. simpl; auto.
  - split; reflexivity.
Qed.

(** On a machine without CUDA, [--compile] leaves the two methods alone
    and the play environment is built; with CUDA they are compiled. *)
Lemma compile_iff_cuda_and_flag_witness :
  (cuda_is_available Demo.cpu_world = false
   /\ prepare_play_mode Demo.cpu_world (Demo.trainer (NInt 64))
        (set_compile Demo.local_args true)
      = prepare_play_mode Demo.cpu_world (Demo.trainer (NInt 64))
          (set_compile Demo.local_args false))
  /\ (exists cfg' pe,
        outcome (prepare_play_mode Demo.cpu_world (Demo.trainer (NInt 64))
                   Demo.compile_args) = Ok (cfg', pe)
        /\ predict_next_obs (pe_wm_env pe) = Method "predict_next_obs"
        /\ upsample_next_obs (pe_wm_env pe) = Method "upsample_next_obs")
  /\ (exists cfg' pe,
        outcome (prepare_play_mode Demo.cuda_world (Demo.trainer (NInt 64))
                   Demo.compile_args) = Ok (cfg', pe)
        /\ predict_next_obs (pe_wm_env pe)
           = Compiled (Method "predict_next_obs") "reduce-overhead").
Proof.
  split; [ split; [ reflexivity | ] | split ].
  - exact (proj1 (proj2 (compile_iff_cuda_and_flag Demo.cpu_world
             (Demo.trainer (NInt 64)) Demo.local_args)) eq_refl).
  - eassert (Hrun : outcome (prepare_play_mode Demo.cpu_world
                               (Demo.trainer (NInt 64)) Demo.compile_args)
                    = Ok (_, _)) by (vm_compute; reflexivity).
    destruct (proj2 (proj2 (compile_iff_cuda_and_flag _ _ _)) _ _ Hrun)
      as (d & Hd & _ & H).
    injection Hd as <-.
    do 2 eexists; split; [ exact Hrun | exact H ].
  - eassert (Hrun : outcome (prepare_play_mode Demo.cuda_world
                               (Demo.trainer (NInt 64)) Demo.compile_args)
                    = Ok (_, _)) by (vm_compute; reflexivity).
    destruct (proj2 (proj2 (compile_iff_cuda_and_flag _ _ _)) _ _ Hrun)
      as (d & Hd & _ & H).
    injection Hd as <-.
    do 2 eexists; split; [ exact Hrun | exact (proj1 H) ].
Defined.

(* ===================================================================== *)
(** ** The denoising-trajectory flags (lines 79-80, 87-93) *)

Lemma world_env_keeps_trajectory W cfg args :
  always keeps_trajectory (prepare_play_mode W cfg args).
Proof.
  unfold prepare_play_mode.
  repeat (always_step; try exact I).
  reflexivity.
Qed.

(** Changing [--store-denoising-trajectory] changes the last step only. *)
Lemma store_flag_reaches_play_env_only W cfg args b :
  agree (fun e => negb (is_PlayEnvInit e))
        (fun r r' =>
           fst r' = fst r
           /\ snd r' = with_store_denoising_trajectory (snd r) b)
        (prepare_play_mode W cfg args)
        (prepare_play_mode W cfg (set_store_denoising_trajectory args b)).
Proof.
  unfold prepare_play_mode.
  repeat (apply agree_bind; intros ? ?).

  split; simpl; auto.
Qed.

(** C9.  Whatever the flags, the world environment is constructed with
    [return_denoising_trajectory=True].  [--store-denoising-trajectory]
    reaches the [PlayEnv] only: setting it to [b] leaves every event
    before the construction of the [PlayEnv] as it was (the construction
    of the world environment and its arguments among them), leaves the way
    the run ends as it was, and the play environment returned is the same
    but for its own flag. *)
Theorem world_env_always_keeps_trajectory (W : World) (cfg : node)
    (args : Namespace) :
  always keeps_trajectory (prepare_play_mode W cfg args)
  /\ (forall cfg' pe,
        outcome (prepare_play_mode W cfg args) = Ok (cfg', pe) ->
        return_denoising_trajectory (pe_wm_env pe) = true
        /\ pe_store_denoising_trajectory pe = store_denoising_trajectory args)
  /\ forall b,
       agree (fun e => negb (is_PlayEnvInit e))
             (fun r r' =>
                fst r' = fst r
                /\ snd r' = with_store_denoising_trajectory (snd r) b)
             (prepare_play_mode W cfg args)
             (prepare_play_mode W cfg (set_store_denoising_trajectory args b)).
Proof.
  split; [ apply world_env_keeps_trajectory | ].
  split; [ | intros b; apply store_flag_reaches_play_env_only ].
  intros cfg' pe Hrun.
  destruct (prepare_play_mode_ok_inv _ _ _ _ _ Hrun).
  destruct (maybe_compile_frame _ _ _ _ H15) as (_ & _ & Hr).
  split; [ exact Hr | reflexivity ].
Qed.

(** On the demonstration bundle, with the flag off and with the flag on,
    the world environment returns the trajectory; only the play
    environment's own flag follows the option. *)
Lemma world_env_always_keeps_trajectory_witness :
  (exists cfg' pe,
     outcome (prepare_play_mode Demo.cpu_world (Demo.trainer (NInt 64))
                Demo.local_args) = Ok (cfg', pe)
     /\ return_denoising_trajectory (pe_wm_env pe) = true
     /\ pe_store_denoising_trajectory pe = false)
  /\ (exists cfg' pe,
        outcome (prepare_play_mode Demo.cpu_world (Demo.trainer (NInt 64))
                   (set_store_denoising_trajectory Demo.local_args true))
        = Ok (cfg', pe)
        /\ return_denoising_trajectory (pe_wm_env pe) = true
        /\ pe_store_denoising_trajectory pe = true).
Proof.
  split.
  - eassert (Hrun : outcome (prepare_play_mode Demo.cpu_world
                               (Demo.trainer (NInt 64)) Demo.local_args)
                    = Ok (_, _)) by (vm_compute; reflexivity).
    do 2 eexists; split; [ exact Hrun | ].
    exact (proj1 (proj2 (world_env_always_keeps_trajectory _ _ _)) _ _ Hrun).
  - eassert (Hrun : outcome (prepare_play_mode Demo.cpu_world
                               (Demo.trainer (NInt 64))
                               (set_store_denoising_trajectory
                                  Demo.local_args true))
                    = Ok (_, _)) by (vm_compute; reflexivity).
    do 2 eexists; split; [ exact Hrun | ].
    exact (proj1 (proj2 (world_env_always_keeps_trajectory _ _ _)) _ _ Hrun).
Defined.

(* ===================================================================== *)
(** ** Where the bundle comes from (lines 49-59) *)

Lemma resolve_path_hf_override W args m override :
  model args = PyPath override ->
  resolve_path_hf W args m = ([], Ok (PyPath override)).
Proof. unfold resolve_path_hf; intros ->; reflexivity. Qed.

Lemma resolve_path_hf_remote W args m :
  model args = PyNone \/ model args = PyStr "" ->
  resolve_path_hf W args m =
    ([EvSnapshotDownload hf_repo_id (m ++ "/*")],
     match snapshot_download W hf_repo_id (m ++ "/*") with
     | Ok d => Ok (PyPath (PurePath.of_string d))
     | Raise e => Raise e
     end).
Proof.
  unfold resolve_path_hf; intros [-> | ->]; simpl;
    destruct (snapshot_download W _ _); reflexivity.
Qed.

Lemma override_reads_bundle W cfg args override :
  model args = PyPath override ->
  always (reads_bundle override (stdin_line W)) (prepare_play_mode W cfg args).
Proof.
  intros Hm; unfold prepare_play_mode.
  apply always_bind; [ apply always_call; exact I | intros m E ].
  injection E as <-.
  apply always_bind;
    [ rewrite (resolve_path_hf_override _ _ _ _ Hm); constructor
    | intros p Hp ].
  rewrite (resolve_path_hf_override _ _ _ _ Hm) in Hp; injection Hp as <-.
  repeat (always_step; try exact I).
  all: repeat match goal with
         | H : outcome (lift (truediv (PyPath _) _)) = Ok _ |- _ =>
             injection H as <-
         end; simpl; auto.
Qed.

Lemma downloads_model_subtree W cfg args :
  always (downloads_subtree (stdin_line W)) (prepare_play_mode W cfg args).
Proof.
  unfold prepare_play_mode.
  apply always_bind; [ apply always_call; exact I | intros m E ].
  injection E as <-.
  repeat (always_step; try exact I).
  split; reflexivity.
Qed.

Lemma trace_bind {A B} (m : M A) (k : A -> M B) :
  trace (bind m k)
  = (trace m
     ++ match outcome m with Ok a => trace (k a) | Raise _ => [] end)%list.
Proof.
  case_eq (outcome m); [ intros a E | intros e E ].
  - rewrite (bind_ok _ _ _ E); reflexivity.
  - rewrite (bind_raise _ _ _ E); simpl; rewrite app_nil_r; reflexivity.
Qed.

(** Without a usable [--model] the download is the first thing after the
    prompt. *)
Lemma remote_download_first W cfg args :
  model args = PyNone \/ model args = PyStr "" ->
  exists t,
    trace (prepare_play_mode W cfg args)
    = EvInput "Model name: "
        :: EvSnapshotDownload hf_repo_id (stdin_line W ++ "/*") :: t.
Proof.
  intros Hm; unfold prepare_play_mode.
  rewrite trace_bind_call, trace_bind.
  rewrite (resolve_path_hf_remote W args _ Hm).
  simpl; eauto.
Qed.

(** For a model name that does not begin with "/" (and is not empty) the
    derived paths lie below the bundle directory. *)
Lemma joinpath_relative p c s :
  c <> PurePath.slash ->
  p // String c s
  = {| PurePath.root := PurePath.root p;
       PurePath.parts :=
         (PurePath.parts p ++ PurePath.parts (PurePath.of_string (String c s)))%list |}.
Proof.
  intros Hc; unfold PurePath.joinpath.
  replace (PurePath.root (PurePath.of_string (String c s))) with "";
    [ reflexivity | ].
  apply Ascii.eqb_neq in Hc; simpl.
  destruct s as [ | ? [ | ? ? ] ]; rewrite Hc; reflexivity.
Qed.




(* ===================================================================== *)
(** ** The identifier check (lines 58-73) *)

Lemma assoc_get_set d k v : assoc_get (assoc_set d k v) k = Some v.
Proof.
  induction d as [ | [k' v'] d IH ]; simpl.
  - rewrite String.eqb_refl; reflexivity.
  - destruct (String.eqb k' k) eqn:E; simpl.
    + rewrite String.eqb_refl; reflexivity.
    + rewrite E; exact IH.
Qed.

(** After [cfg.env = doc], [cfg.env.ks] is [doc.ks]. *)
Lemma cfg_path_env d doc ks :
  cfg_path (NDict (assoc_set d "env" doc)) ("env" :: ks) = cfg_path doc ks.
Proof. simpl; rewrite assoc_get_set; reflexivity. Qed.

(** C1.  Let the bundle be located and its two documents load, and let
    the identifier the environment document declares ([train.id]) differ
    from the name typed at the prompt.  Then [prepare_play_mode] ends with
    [AssertionError]; up to there it has prompted, located the bundle,
    loaded the two documents and probed the devices, and nothing else: no
    agent was created, moved to a device or loaded. *)
Theorem id_mismatch_is_fatal (W : World) (d : list (string * node))
    (args : Namespace) (path_hf : Path) (agent_doc env_doc id : node) :
  let m := stdin_line W in
  outcome (resolve_path_hf W args m) = Ok (PyPath path_hf) ->
  OmegaConf_load W (path_hf // (m ++ "/config/agent/" ++ m ++ ".yaml"))
  = Ok agent_doc ->
  OmegaConf_load W (path_hf // (m ++ "/config/env/" ++ m ++ ".yaml"))
  = Ok env_doc ->
  cfg_path env_doc ["train"; "id"] = Ok id ->
  node_eq_str id m = false ->
  outcome (prepare_play_mode W (NDict d) args) = Raise AssertionError
  /\ trace (prepare_play_mode W (NDict d) args)
     = (EvInput "Model name: " :: trace (resolve_path_hf W args m)
        ++ [EvOmegaConfLoad (path_hf // (m ++ "/config/agent/" ++ m ++ ".yaml"));
            EvOmegaConfLoad (path_hf // (m ++ "/config/env/" ++ m ++ ".yaml"))]
        ++ trace (select_device W))%list
  /\ always no_model_event (prepare_play_mode W (NDict d) args).
Proof.
  intros m Hp Hagent Henv Hid Hne.
  destruct (select_device_total W) as [device Hdev].
  pose proof (cfg_path_env (assoc_set d "agent" agent_doc) env_doc
                ["train"; "id"]) as Hcfg.
  rewrite Hid in Hcfg.
  assert (exists T,
            prepare_play_mode W (NDict d) args = (T, Raise AssertionError)
            /\ T = (EvInput "Model name: " :: trace (resolve_path_hf W args m)
                    ++ [EvOmegaConfLoad
                          (path_hf // (m ++ "/config/agent/" ++ m ++ ".yaml"));
                        EvOmegaConfLoad
                          (path_hf // (m ++ "/config/env/" ++ m ++ ".yaml"))]
                    ++ trace (select_device W))%list) as (T & Hrun & HT).
  { eexists; split.
    - unfold prepare_play_mode.
      repeat (eapply bind_eq;
              [ first [ eassumption | reflexivity ] | cbv beta | ]).
      all: try reflexivity.
      unfold m in Hne; rewrite Hne; reflexivity.
    - cbn [trace fst app]; rewrite app_nil_r; reflexivity. }
  rewrite Hrun; cbn [trace outcome fst snd].
  split; [ reflexivity | split; [ exact HT | ] ].
  unfold always; cbn [trace fst]; subst T.
  rewrite select_device_run.
  destruct (resolve_path_hf_trace W args m) as [E | E]; rewrite E;
    destruct (cuda_is_available W), (mps_is_available W);
    repeat constructor.
Qed.

(** On the demonstration bundle whose environment document declares
    "track-b" while "track-a" is typed: the run ends with the assertion
    and no agent was touched. *)
Lemma id_mismatch_is_fatal_witness :
  node_eq_str (NStr "track-b") (stdin_line Demo.mismatched_world) = false
  /\ outcome (prepare_play_mode Demo.mismatched_world
                (Demo.trainer (NInt 64)) Demo.local_args)
     = Raise AssertionError
  /\ always no_model_event
       (prepare_play_mode Demo.mismatched_world (Demo.trainer (NInt 64))
          Demo.local_args).
Proof.
  split; [ reflexivity | ].
  destruct (id_mismatch_is_fatal Demo.mismatched_world
              (Demo.trainer_items (NInt 64)) Demo.local_args Demo.models
              Demo.agent_doc (Demo.env_doc "track-b") (NStr "track-b"))
    as (Hout & _ & Hall); try reflexivity.
  split; [ exact Hout | exact Hall ].
Defined.

(* ===================================================================== *)
(** ** [--model] absent and [--model ""] (lines 31-36, 49-52) *)

(** [Path("")] is the current directory. *)
Lemma empty_path_is_dot : PurePath.to_string (PurePath.of_string "") = ".".
Proof. reflexivity. Qed.

(** Were the empty string itself to reach [args.model], the registry would
    be used, as for [None]: this is what the test on line 49 is for. *)
Lemma empty_string_is_remote W m :
  resolve_path_hf W (set_model defaults (PyStr "")) m
  = resolve_path_hf W defaults m.
Proof. reflexivity. Qed.

(** C6 fails on the code.  [parse_args] converts the argument of
    [--model] with [Path], so [--model ""] gives [Path("")], the current
    directory, and not the empty string; a path is never equal to a
    string, so the test on line 49 is false and the local branch is taken:
    no download, the bundle is read from the current directory.  With
    [--model] absent the value is [None] and the registry is asked. *)
Theorem empty_model_option_is_local (W : World) (cfg : node) :
  parse_args [] = Ok defaults
  /\ model defaults = PyNone
  /\ parse_args Demo.empty_model_argv = Ok Demo.empty_model_args
  /\ model Demo.empty_model_args = PyPath (PurePath.of_string "")
  /\ resolve_path_hf W defaults (stdin_line W)
     = ([EvSnapshotDownload hf_repo_id (stdin_line W ++ "/*")],
        match snapshot_download W hf_repo_id (stdin_line W ++ "/*") with
        | Ok d => Ok (PyPath (PurePath.of_string d))
        | Raise e => Raise e
        end)
  /\ resolve_path_hf W Demo.empty_model_args (stdin_line W)
     = ([], Ok (PyPath (PurePath.of_string "")))
  /\ always (reads_bundle (PurePath.of_string "") (stdin_line W))
            (prepare_play_mode W cfg Demo.empty_model_args)
  /\ exists t,
       trace (prepare_play_mode W cfg defaults)
       = EvInput "Model name: "
           :: EvSnapshotDownload hf_repo_id (stdin_line W ++ "/*") :: t.
Proof.
  repeat (split; [ reflexivity | ]).
  split; [ apply resolve_path_hf_remote; left; reflexivity | ].
  split; [ reflexivity | ].
  split; [ apply override_reads_bundle; reflexivity | ].
  apply remote_download_first; left; reflexivity.
Qed.

(** The two command lines on the demonstration machine: with [--model ""]
    the first file is looked for under the current directory and no
    download is made; without [--model] the download comes first. *)
Lemma empty_model_option_differs :
  (exists t,
     trace (prepare_play_mode Demo.cpu_world (Demo.trainer (NInt 64))
              Demo.empty_model_args)
     = EvInput "Model name: "
         :: EvOmegaConfLoad
              (PurePath.of_string "track-a/config/agent/track-a.yaml") :: t)
  /\ (exists t,
        trace (prepare_play_mode Demo.cpu_world (Demo.trainer (NInt 64))
                 defaults)
        = EvInput "Model name: "
            :: EvSnapshotDownload hf_repo_id "track-a/*" :: t)
  /\ trace (prepare_play_mode Demo.cpu_world (Demo.trainer (NInt 64))
              Demo.empty_model_args)
     <> trace (prepare_play_mode Demo.cpu_world (Demo.trainer (NInt 64))
                 defaults).
Proof.
  split; [ eexists; vm_compute; reflexivity | ].
  split; [ eexists; vm_compute; reflexivity | ].
  vm_compute; discriminate.
Qed.

(* ===================================================================== *)
(** ** What [parse_args] accepts and returns (lines 20-36) *)

Ltac split_option H :=
  repeat lazymatch type of H with
         | (if (?a =? ?b)%string || _ then _ else _) = _ =>
             destruct (String.eqb_spec a b); [ subst a | ]; cbn [orb] in H
         | (if (?a =? ?b)%string then _ else _) = _ =>
             destruct (String.eqb_spec a b); [ subst a | ]
         | match ?l with [] => _ | _ :: _ => _ end = _ =>
             destruct l; [ discriminate H | ]
         | int_option ?v _ = _ =>
             unfold int_option in H;
             destruct (is_argument v) eqn:?; [ | discriminate H ];
             destruct (py_int v) eqn:?; [ | discriminate H ]
         | (if is_argument ?v then _ else _) = _ =>
             destruct (is_argument v) eqn:?; [ | discriminate H ]
         end.

(** Every accepted command line is derivable by the rules. *)
Lemma parse_known_parses n :
  forall argv ns ns',
    (length argv <= n)%nat ->
    parse_known argv ns = Ok ns' -> parses argv ns ns'.
Proof.
  induction n as [ | n IH ]; intros argv ns ns' Hlen H.
  - destruct argv; [ | simpl in Hlen; lia ].
    injection H as <-; constructor.
  - destruct argv as [ | tok rest ]; [ injection H as <-; constructor | ].
    simpl in Hlen. cbn [parse_known] in H.
    split_option H; try discriminate H;
      econstructor; try eassumption; apply IH;
      try assumption; simpl in Hlen; lia.
Qed.

Lemma parses_parse_known argv ns ns' :
  parses argv ns ns' -> parse_known argv ns = Ok ns'.
Proof.
  induction 1; simpl; try assumption;
    unfold int_option;
    repeat match goal with
           | H : is_argument _ = true |- _ => rewrite H; clear H
           | H : py_int _ = Some _ |- _ => rewrite H; clear H
           end;
    reflexivity || assumption.
Qed.

Lemma parse_args_parses argv args :
  parse_args argv = Ok args <-> parses argv defaults args.
Proof.
  split.
  - intros H; apply (parse_known_parses (length argv)); [ apply le_n | exact H ].
  - apply parses_parse_known.
Qed.

(** A value token is none of the option strings. *)
Lemma argument_is_no_option v o :
  is_argument v = true -> is_argument o = false -> v <> o.
Proof. intros Hv Ho ->; congruence. Qed.

Ltac no_option :=
  subst;
  match goal with
  | H : is_argument _ = true |- _ => discriminate H
  end.

(** [--model] present: a path; absent: the value before parsing. *)
Lemma parsed_model argv ns ns' :
  parses argv ns ns' ->
  (In "--model" argv -> exists p, model ns' = PyPath p)
  /\ (~ In "--model" argv -> model ns' = model ns)
  /\ ((exists p, model ns = PyPath p) -> exists p, model ns' = PyPath p).
Proof.
  induction 1 as [ ns | | | | | | | | | | | v rest ns ns' Hv Hp IH ];
    try (destruct IHparses as (IH1 & IH2 & IH3); simpl in IH2, IH3;
         split; [ | split ];
         [ intros Hin; apply IH1; simpl in Hin;
           repeat (destruct Hin as [Hin | Hin];
                   [ try discriminate Hin; try no_option | ]); exact Hin
         | intros Hn; apply IH2; intros Hin; apply Hn; simpl; auto
         | exact IH3 ]).
  - split; [ intros [] | split; [ intros _; reflexivity | auto ] ].
  - destruct IH as (_ & _ & IH3); simpl in IH3.
    split; [ | split ].
    + intros _; apply IH3; eauto.
    + intros Hn; exfalso; apply Hn; left; reflexivity.
    + intros _; apply IH3; eauto.
Qed.

(** X1.  On every command line accepted by [parse_args] as modelled here
    (the option strings as declared, each value in the next token),
    [args.model] is [None] or a path, never a string: the argument of
    [--model] goes through [Path].  So the comparison of line 49 with the
    empty string is false for every parsed namespace, and the registry is
    asked exactly when [args.model] is [None]. *)
Theorem parsed_model_is_path_or_none (argv : list string) (args : Namespace) :
  parse_args argv = Ok args ->
  (model args = PyNone \/ exists p, model args = PyPath p)
  /\ py_eq (model args) (PyStr "") = false
  /\ forall W m,
       resolve_path_hf W args m
       = match model args with
         | PyNone =>
             ([EvSnapshotDownload hf_repo_id (m ++ "/*")],
              match snapshot_download W hf_repo_id (m ++ "/*") with
              | Ok d => Ok (PyPath (PurePath.of_string d))
              | Raise e => Raise e
              end)
         | _ => ([], Ok (model args))
         end.
Proof.
  intros Hp; apply parse_args_parses in Hp.
  destruct (parsed_model _ _ _ Hp) as (Hin & Hout & _).
  change (model defaults) with PyNone in Hout.
  assert (Hm : model args = PyNone \/ exists p, model args = PyPath p).
  { destruct (in_dec string_dec "--model" argv) as [Hi | Hn];
      [ right; apply Hin; exact Hi | left; apply Hout; exact Hn ]. }
  split; [ exact Hm | ].
  destruct Hm as [Hm | [p Hm]].
  - split; [ rewrite Hm; reflexivity | ].
    intros W m; rewrite (resolve_path_hf_remote W args m (or_introl Hm)), Hm.
    reflexivity.
  - split; [ rewrite Hm; reflexivity | ].
    intros W m; rewrite (resolve_path_hf_override W args m p Hm), Hm.
    reflexivity.
Qed.

(** [--model ""] is accepted and the value is a path. *)
Lemma parsed_model_is_path_or_none_witness :
  parse_args Demo.empty_model_argv = Ok Demo.empty_model_args
  /\ (exists p, model Demo.empty_model_args = PyPath p)
  /\ py_eq (model Demo.empty_model_args) (PyStr "") = false.
Proof.
  destruct (parsed_model_is_path_or_none Demo.empty_model_argv
              Demo.empty_model_args eq_refl) as (H1 & H2 & _).
  split; [ reflexivity | ].
  split; [ | exact H2 ].
  destruct H1 as [H1 | H1]; [ discriminate H1 | exact H1 ].
Defined.

(* ===================================================================== *)
(** ** The warning and the flags it is about (lines 39-42, 87-93) *)

Lemma main_body_never_warns W args :
  always (fun e => e <> EvPrint store_warning) (main_body W args).
Proof.
  unfold main_body.
  repeat (always_step; try discriminate).
  unfold prepare_play_mode.
  repeat (always_step; try discriminate).
Qed.

(** X2.  Once the command line is parsed into [args], [main] prints the
    warning about the [--store*] options exactly when [args.record] is
    false and [args.store_denoising_trajectory] or
    [args.store_original_obs] is true; no other step of [main] prints
    that text. *)
Theorem store_warning_iff (W : World) (argv : list string) (args : Namespace) :
  parse_args argv = Ok args ->
  (In (EvPrint store_warning) (trace (main W argv)) <->
   record args = false
   /\ store_denoising_trajectory args || store_original_obs args = true).
Proof.
  intros Hp.
  rewrite main_run, Hp, check_args_run; cbn [trace fst].
  pose proof (main_body_never_warns W args) as Hnever.
  split.
  - intros Hin; apply in_app_or in Hin as [Hin | Hin].
    + destruct (record args); [ destruct Hin | ].
      destruct (store_denoising_trajectory args || store_original_obs args);
        [ auto | destruct Hin ].
    + exfalso; exact (always_In _ _ _ Hnever Hin eq_refl).
  - intros [Er Es]; apply in_or_app; left.
    rewrite Er, Es; left; reflexivity.
Qed.

(** [--store-original-obs] alone warns; with [-r] it does not. *)
Lemma store_warning_iff_witness :
  In (EvPrint store_warning) (trace (main Demo.cpu_world Demo.store_argv))
  /\ ~ In (EvPrint store_warning)
         (trace (main Demo.cpu_world ("-r" :: Demo.store_argv))).
Proof.
  split.
  - apply (proj2 (store_warning_iff Demo.cpu_world Demo.store_argv
                    Demo.store_args eq_refl)).
    split; reflexivity.
  - intros Hin.
    eassert (Hp : parse_args ("-r" :: Demo.store_argv) = Ok _)
      by (vm_compute; reflexivity).
    apply (proj1 (store_warning_iff Demo.cpu_world _ _ Hp)) in Hin.
    destruct Hin as [Hr _]; discriminate Hr.
Defined.

Lemma play_env_flags_forwarded W cfg args :
  always (forwards_flags args) (prepare_play_mode W cfg args).
Proof.
  unfold prepare_play_mode.
  repeat (always_step; try exact I).
  simpl; auto.
Qed.

(** X3.  The three recording flags reach [PlayEnv] exactly as parsed.
    In particular the retention flags that the warning calls ignored are
    not cleared: without [-r] and with [--store-original-obs], the play
    environment is still built with [store_original_obs=True]. *)
Theorem flags_reach_play_env_unchanged (W : World) (argv : list string)
    (args : Namespace) :
  parse_args argv = Ok args ->
  always (forwards_flags args) (main W argv).
Proof.
  intros Hp; unfold always.
  rewrite main_run, Hp, check_args_run; cbn [trace fst].
  apply Forall_app; split.
  - destruct (negb _ && _); repeat constructor.
  - change (always (forwards_flags args) (main_body W args)).
    unfold main_body.
    repeat (always_step; try exact I).
    apply play_env_flags_forwarded.
Qed.

(** On the demonstration bundle, [--store-original-obs] without [-r]: the
    warning is printed and the play environment keeps the flag. *)
Lemma flags_reach_play_env_unchanged_witness :
  exists pe t1 t2,
    trace (main Demo.cpu_world Demo.store_argv)
    = (EvPrint store_warning :: t1 ++ EvPlayEnvInit pe :: t2)%list
    /\ pe_record pe = false
    /\ pe_store_denoising_trajectory pe = false
    /\ pe_store_original_obs pe = true.
Proof.
  pose proof (flags_reach_play_env_unchanged Demo.cpu_world Demo.store_argv
                Demo.store_args eq_refl) as Hall.
  eassert (Ht : trace (main Demo.cpu_world Demo.store_argv)
                = (EvPrint store_warning
                     :: firstn 14 (tl (trace (main Demo.cpu_world Demo.store_argv)))
                     ++ EvPlayEnvInit _ :: _)%list)
    by (vm_compute; reflexivity).
  do 3 eexists; split; [ exact Ht | ].
  apply (always_In _ _ (EvPlayEnvInit _) Hall).
  rewrite Ht; right; apply in_or_app; right; left; reflexivity.
Defined.

(* ===================================================================== *)
(** ** What a returning [prepare_play_mode] has done (lines 45-95) *)

Lemma maybe_compile_keeps_models device args wm wm' :
  outcome (maybe_compile device args wm) = Ok wm' ->
  wm_denoiser wm' = wm_denoiser wm
  /\ wm_upsampler wm' = wm_upsampler wm
  /\ wm_rew_end_model wm' = wm_rew_end_model wm
  /\ wm_num_envs wm' = wm_num_envs wm
  /\ wm_cfg wm' = wm_cfg wm.
Proof.
  rewrite maybe_compile_run.
  destruct (_ && _); simpl; intros [= <-]; auto.
Qed.

(** X5.  The play environment that [prepare_play_mode] returns holds an
    agent in evaluation mode that lives on the selected device, and a
    world environment built for one environment from that agent's own
    denoiser, upsampler and reward/end model; the checkpoint was loaded
    after the agent had been moved and switched to evaluation mode. *)
Theorem play_env_is_consistent (W : World) (cfg : node) (args : Namespace)
    (cfg' : node) (pe : PlayEnv) :
  outcome (prepare_play_mode W cfg args) = Ok (cfg', pe) ->
  agent_training (pe_agent pe) = false
  /\ outcome (select_device W) = Ok (agent_device (pe_agent pe))
  /\ wm_denoiser (pe_wm_env pe) = denoiser (pe_agent pe)
  /\ wm_upsampler (pe_wm_env pe) = upsampler (pe_agent pe)
  /\ wm_rew_end_model (pe_wm_env pe) = rew_end_model (pe_agent pe)
  /\ wm_num_envs (pe_wm_env pe) = 1
  /\ exists p t1 t2,
       trace (prepare_play_mode W cfg args)
       = (t1 ++ [EvAgentTo (agent_device (pe_agent pe)); EvAgentEval;
                 EvAgentLoad p] ++ t2)%list
       /\ Agent_load W (pe_agent pe) p = Ok tt.
Proof.
  intros Hrun.
  destruct (prepare_play_mode_ok_inv _ _ _ _ _ Hrun).
  destruct (maybe_compile_keeps_models _ _ _ _ H15)
    as (Hd & Hu & Hr & Hn & _).
  simpl; rewrite Hd, Hu, Hr, Hn.
  repeat (split; [ reflexivity || assumption | ]).
  exists (path_hf // ckpt_file m).
  exists (EvInput "Model name: " :: trace (resolve_path_hf W args m)
          ++ [EvOmegaConfLoad (path_hf // agent_yaml_file m);
              EvOmegaConfLoad (path_hf // env_yaml_file m)]
          ++ trace (select_device W)
          ++ [EvAgentInit cfg_agent num_actions])%list.
  exists ([EvInstantiate cfg_wm 1; EvWorldModelEnvInit wm0]
          ++ trace (maybe_compile device args wm0)
          ++ [EvPlayEnvInit pe])%list.
  split; [ | exact H10 ].
  subst t; cbn [app]; rewrite <- !app_assoc; cbn [app].
  rewrite <- !app_assoc; reflexivity.
Qed.

Lemma play_env_is_consistent_witness :
  exists cfg' pe,
    outcome (prepare_play_mode Demo.cuda_world (Demo.trainer (NInt 64))
               Demo.local_args) = Ok (cfg', pe)
    /\ agent_training (pe_agent pe) = false
    /\ agent_device (pe_agent pe) = cuda 0
    /\ wm_denoiser (pe_wm_env pe) = denoiser (pe_agent pe).
Proof.
  eassert (Hrun : outcome (prepare_play_mode Demo.cuda_world
                             (Demo.trainer (NInt 64)) Demo.local_args)
                  = Ok (_, _)) by (vm_compute; reflexivity).
  destruct (play_env_is_consistent _ _ _ _ _ Hrun)
    as (Ht & Hd & Hden & _).
  do 2 eexists; split; [ exact Hrun | ].
  split; [ exact Ht | ].
  split; [ reflexivity | exact Hden ].
Defined.

(* ===================================================================== *)
(** ** The configuration override (lines 57-59) *)

Lemma assoc_get_set_other d k k' v :
  k' <> k -> assoc_get (assoc_set d k v) k' = assoc_get d k'.
Proof.
  intros Hk; induction d as [ | [k0 v0] d IH ]; simpl.
  - destruct (String.eqb_spec k k'); [ congruence | reflexivity ].
  - destruct (String.eqb_spec k0 k); simpl.
    + subst k0.
      destruct (String.eqb_spec k k'); [ congruence | reflexivity ].
    + destruct (String.eqb_spec k0 k'); [ reflexivity | exact IH ].
Qed.

Lemma cfg_set_get c k v c' :
  cfg_set c k v = Ok c' ->
  cfg_get c' k = Ok v
  /\ forall k', k' <> k -> cfg_get c' k' = cfg_get c k'.
Proof.
  destruct c; simpl; try discriminate; intros [= <-]; simpl.
  rewrite assoc_get_set; split; [ reflexivity | ].
  intros k' Hk; rewrite assoc_get_set_other by assumption; reflexivity.
Qed.

(** X6.  When [prepare_play_mode] returns, the configuration it leaves
    behind has the two loaded documents as its [agent] and [env] sections
    and every other section as before.  The agent was constructed from the
    loaded agent document with the [num_actions] of the loaded environment
    document, whereas the world-model settings that were instantiated are
    those of the configuration passed in (the bundle does not override
    them). *)
Theorem override_replaces_agent_and_env_only (W : World) (cfg : node)
    (args : Namespace) (cfg' : node) (pe : PlayEnv) :
  outcome (prepare_play_mode W cfg args) = Ok (cfg', pe) ->
  exists agent_doc env_doc num_actions cfg_wm,
    In (EvAgentInit agent_doc num_actions)
       (trace (prepare_play_mode W cfg args))
    /\ In (EvInstantiate cfg_wm 1) (trace (prepare_play_mode W cfg args))
    /\ cfg_get cfg' "agent" = Ok agent_doc
    /\ cfg_get cfg' "env" = Ok env_doc
    /\ (forall k, k <> "agent" -> k <> "env" -> cfg_get cfg' k = cfg_get cfg k)
    /\ cfg_get env_doc "num_actions" = Ok num_actions
    /\ cfg_get cfg "world_model_env" = Ok cfg_wm
    /\ exists p_agent p_env,
         OmegaConf_load W p_agent = Ok agent_doc
         /\ OmegaConf_load W p_env = Ok env_doc.
Proof.
  intros Hrun.
  destruct (prepare_play_mode_ok_inv _ _ _ _ _ Hrun).
  destruct (cfg_set_get _ _ _ _ H1) as (Ha1 & Hother1).
  destruct (cfg_set_get _ _ _ _ H3) as (He & Hother2).
  assert (Ha : cfg_get cfg' "agent" = Ok agent_doc)
    by (rewrite Hother2 by discriminate; exact Ha1).
  exists agent_doc, env_doc, num_actions, cfg_wm.
  assert (cfg_agent = agent_doc) as -> by congruence.
  split; [ | split ].
  - subst t; right; apply in_or_app; right.
    apply in_or_app; right. apply in_or_app; right.
    apply in_or_app; left; left; reflexivity.
  - subst t; right; apply in_or_app; right.
    apply in_or_app; right. apply in_or_app; right.
    apply in_or_app; left; simpl; auto 10.
  - split; [ exact Ha | ].
    split; [ exact He | ].
    split; [ intros k Hk1 Hk2; rewrite Hother2, Hother1 by assumption;
             reflexivity | ].
    split.
    + cbn [cfg_path] in H7; rewrite He in H7.
      destruct (cfg_get env_doc "num_actions"); congruence.
    + split; [ rewrite <- Hother1, <- Hother2 by discriminate; exact H12 | ].
      eauto.
Qed.

Lemma override_replaces_agent_and_env_only_witness :
  exists cfg' pe,
    outcome (prepare_play_mode Demo.cpu_world (Demo.trainer (NInt 64))
               Demo.local_args) = Ok (cfg', pe)
    /\ cfg_get cfg' "agent" = Ok Demo.agent_doc
    /\ cfg_get cfg' "env" = Ok (Demo.env_doc "track-a")
    /\ cfg_get cfg' "world_model_env"
       = cfg_get (Demo.trainer (NInt 64)) "world_model_env".
Proof.
  eassert (Hrun : outcome (prepare_play_mode Demo.cpu_world
                             (Demo.trainer (NInt 64)) Demo.local_args)
                  = Ok (_, _)) by (vm_compute; reflexivity).
  destruct (override_replaces_agent_and_env_only _ _ _ _ _ Hrun)
    as (a & e & n & w & _ & _ & Ha & He & Hk & _).
  do 2 eexists; split; [ exact Hrun | ].
  split; [ reflexivity | split; [ reflexivity | ] ].
  apply Hk; discriminate.
Defined.

(* ===================================================================== *)
(** ** Where a run stops when something is wrong *)

Ltac run_binds :=
  repeat (eapply bind_eq;
          [ first [ eassumption | reflexivity ] | cbv beta | ]).

Lemma cfg_get_raise c k e : cfg_get c k = Raise e -> e = AttributeError k.
Proof.
  destruct c; simpl; try (intros [= <-]; reflexivity).
  destruct (assoc_get d k); [ discriminate | intros [= <-]; reflexivity ].
Qed.

Lemma cfg_path_raise c ks e :
  cfg_path c ks = Raise e -> exists k, In k ks /\ e = AttributeError k.
Proof.
  revert c; induction ks as [ | k ks IH ]; intros c; simpl; [ discriminate | ].
  destruct (cfg_get c k) eqn:E.
  - intros H; destruct (IH _ H) as (k' & Hin & He); eauto.
  - intros [= <-]; apply cfg_get_raise in E; eauto.
Qed.

(** The run up to the identifier check, when the check does not pass. *)
Lemma stops_at_id_check W d args path_hf agent_doc env_doc e :
  let m := stdin_line W in
  outcome (resolve_path_hf W args m) = Ok (PyPath path_hf) ->
  OmegaConf_load W (path_hf // agent_yaml_file m) = Ok agent_doc ->
  OmegaConf_load W (path_hf // env_yaml_file m) = Ok env_doc ->
  match cfg_path env_doc ["train"; "id"] with
  | Ok id => node_eq_str id m = false /\ e = AssertionError
  | Raise x => e = x
  end ->
  prepare_play_mode W (NDict d) args
  = ((EvInput "Model name: " :: trace (resolve_path_hf W args m)
      ++ [EvOmegaConfLoad (path_hf // agent_yaml_file m);
          EvOmegaConfLoad (path_hf // env_yaml_file m)]
      ++ trace (select_device W))%list,
     Raise e).
Proof.
  intros m Hp Hagent Henv Hid.
  destruct (select_device_total W) as [device Hdev].
  pose proof (cfg_path_env (assoc_set d "agent" agent_doc) env_doc
                ["train"; "id"]) as Hcfg.
  assert (exists T,
            prepare_play_mode W (NDict d) args = (T, Raise e)
            /\ T = (EvInput "Model name: " :: trace (resolve_path_hf W args m)
                    ++ [EvOmegaConfLoad (path_hf // agent_yaml_file m);
                        EvOmegaConfLoad (path_hf // env_yaml_file m)]
                    ++ trace (select_device W))%list) as (T & -> & ->);
    [ | reflexivity ].
  eexists; split.
  - unfold prepare_play_mode.
    destruct (cfg_path env_doc ["train"; "id"]) as [id | x] eqn:E.
    + destruct Hid as [Hne ->].
      run_binds.
      all: try reflexivity.
      unfold m in Hne; rewrite Hne; reflexivity.
    + subst x.
      run_binds.
      all: try reflexivity.
      unfold lift; rewrite Hcfg; reflexivity.
  - cbn [trace fst app]; rewrite app_nil_r; reflexivity.
Qed.

Lemma no_model_event_before_check W args m p1 p2 :
  Forall no_model_event
    (EvInput "Model name: " :: trace (resolve_path_hf W args m)
     ++ [EvOmegaConfLoad p1; EvOmegaConfLoad p2]
     ++ trace (select_device W))%list.
Proof.
  rewrite select_device_run.
  destruct (resolve_path_hf_trace W args m) as [E | E]; rewrite E;
    destruct (cuda_is_available W), (mps_is_available W);
    repeat constructor.
Qed.

(** X7.  With the bundle located and both documents loaded: if the
    environment document has no [train.id], the run ends with the
    attribute error of the missing key (not with the assertion); if its
    [train.id] is not a string (an integer, say), the run ends with
    [AssertionError] whatever name was typed, a string being never equal
    to such a value.  In both cases no agent has been created, moved or
    loaded. *)
Theorem id_check_edge_cases (W : World) (d : list (string * node))
    (args : Namespace) (path_hf : Path) (agent_doc env_doc : node) :
  let m := stdin_line W in
  outcome (resolve_path_hf W args m) = Ok (PyPath path_hf) ->
  OmegaConf_load W (path_hf // (m ++ "/config/agent/" ++ m ++ ".yaml"))
  = Ok agent_doc ->
  OmegaConf_load W (path_hf // (m ++ "/config/env/" ++ m ++ ".yaml"))
  = Ok env_doc ->
  (forall e,
     cfg_path env_doc ["train"; "id"] = Raise e ->
     outcome (prepare_play_mode W (NDict d) args) = Raise e
     /\ (e = AttributeError "train" \/ e = AttributeError "id")
     /\ always no_model_event (prepare_play_mode W (NDict d) args))
  /\ (forall id,
        cfg_path env_doc ["train"; "id"] = Ok id ->
        (forall s, id <> NStr s) ->
        outcome (prepare_play_mode W (NDict d) args) = Raise AssertionError
        /\ always no_model_event (prepare_play_mode W (NDict d) args)).
Proof.
  intros m Hp Hagent Henv; split.
  - intros e He.
    rewrite (stops_at_id_check W d args path_hf agent_doc env_doc e Hp
               Hagent Henv) by (rewrite He; reflexivity).
    split; [ reflexivity | split ].
    + destruct (cfg_path_raise _ _ _ He) as (k & [<- | [<- | []]] & ->); auto.
    + apply no_model_event_before_check.
  - intros id Hid Hns.
    assert (Hne : node_eq_str id m = false).
    { destruct id; try reflexivity. exfalso; exact (Hns s eq_refl). }
    rewrite (stops_at_id_check W d args path_hf agent_doc env_doc
               AssertionError Hp Hagent Henv)
      by (rewrite Hid; auto).
    split; [ reflexivity | apply no_model_event_before_check ].
Qed.

(** A bundle without [train.id] and one whose [train.id] is 7. *)
Lemma id_check_edge_cases_witness :
  outcome (prepare_play_mode Faulty.no_id_world (Demo.trainer (NInt 64))
             Demo.local_args) = Raise (AttributeError "id")
  /\ outcome (prepare_play_mode Faulty.number_id_world
                (Demo.trainer (NInt 64)) Demo.local_args)
     = Raise AssertionError.
Proof.
  split.
  - destruct (id_check_edge_cases Faulty.no_id_world
                (Demo.trainer_items (NInt 64)) Demo.local_args Demo.models
                Demo.agent_doc Faulty.env_doc_without_id
                eq_refl eq_refl eq_refl) as [H _].
    exact (proj1 (H (AttributeError "id") eq_refl)).
  - destruct (id_check_edge_cases Faulty.number_id_world
                (Demo.trainer_items (NInt 64)) Demo.local_args Demo.models
                Demo.agent_doc Faulty.env_doc_with_number
                eq_refl eq_refl eq_refl) as [_ H].
    refine (proj1 (H (NInt 7) eq_refl _)); discriminate.
Defined.

(** X8.  A failed retrieval ends the run at once, with the collaborator's
    exception unchanged.  Without [--model], a failing download leaves the
    prompt and the download request as the only events.  With the bundle
    located, a failing load of the agent document ends the run before the
    environment document is asked for and before any device is probed. *)
Theorem retrieval_failure_is_fatal (W : World) (cfg : node) (args : Namespace) :
  let m := stdin_line W in
  (forall e,
     model args = PyNone ->
     snapshot_download W "DereWah/diamond-mariokart64" (m ++ "/*") = Raise e ->
     prepare_play_mode W cfg args
     = ([EvInput "Model name: ";
         EvSnapshotDownload "DereWah/diamond-mariokart64" (m ++ "/*")],
        Raise e))
  /\ (forall path_hf e,
        outcome (resolve_path_hf W args m) = Ok (PyPath path_hf) ->
        OmegaConf_load W (path_hf // (m ++ "/config/agent/" ++ m ++ ".yaml"))
        = Raise e ->
        prepare_play_mode W cfg args
        = ((EvInput "Model name: " :: trace (resolve_path_hf W args m)
            ++ [EvOmegaConfLoad
                  (path_hf // (m ++ "/config/agent/" ++ m ++ ".yaml"))])%list,
           Raise e)).
Proof.
  intros m; split.
  - intros e Hm He; unfold prepare_play_mode.
    eapply bind_eq; [ reflexivity | cbv beta | reflexivity ].
    rewrite (resolve_path_hf_remote W args _ (or_introl Hm)).
    fold m; unfold hf_repo_id; rewrite He; reflexivity.
  - intros path_hf e Hp He.
    assert (exists T,
              prepare_play_mode W cfg args = (T, Raise e)
              /\ T = (EvInput "Model name: "
                        :: trace (resolve_path_hf W args m)
                        ++ [EvOmegaConfLoad
                              (path_hf // (m ++ "/config/agent/" ++ m ++ ".yaml"))])%list)
      as (T & -> & ->); [ | reflexivity ].
    eexists; split.
    + unfold prepare_play_mode.
      run_binds.
      all: try reflexivity.
      unfold call; fold m; rewrite He; reflexivity.
    + reflexivity.
Qed.

Lemma retrieval_failure_is_fatal_witness :
  prepare_play_mode Faulty.offline_world (Demo.trainer (NInt 64)) defaults
  = ([EvInput "Model name: ";
      EvSnapshotDownload "DereWah/diamond-mariokart64" "track-a/*"],
     Raise (ExternalError "ConnectionError"))
  /\ outcome (prepare_play_mode Faulty.empty_disk_world
                (Demo.trainer (NInt 64)) Demo.local_args)
     = Raise (ExternalError "FileNotFoundError").
Proof.
  destruct (retrieval_failure_is_fatal Faulty.offline_world
              (Demo.trainer (NInt 64)) defaults) as [H1 _].
  destruct (retrieval_failure_is_fatal Faulty.empty_disk_world
              (Demo.trainer (NInt 64)) Demo.local_args) as [_ H2].
  split.
  - exact (H1 _ eq_refl eq_refl).
  - rewrite (H2 Demo.models _ eq_refl eq_refl); reflexivity.
Defined.

(* ===================================================================== *)
(** ** [main] from end to end (lines 98-114) *)

Lemma window_size_wrong_length l m :
  length l <> 2%nat -> window_size (NList l) m = Raise (ValueError "unpack").
Proof.
  destruct l as [ | a [ | b [ | c l ] ] ]; simpl; intros H;
    reflexivity || (exfalso; apply H; reflexivity).
Qed.

(** X9.  The window size is computed before the model is asked for.  If
    the composed configuration has no [env.train.size], or if that size is
    a list that does not have exactly two elements, [main] ends with the
    error ([ValueError] for the list) after composing and printing the
    configuration: the user is not prompted, nothing is downloaded or
    loaded. *)
Theorem bad_base_size_fails_before_prompt (W : World) (args : Namespace)
    (cfg : node) :
  hydra_compose W "trainer" = Ok cfg ->
  (forall e,
     cfg_path cfg ["env"; "train"; "size"] = Raise e ->
     main_body W args
     = ([EvHydraInitialize "1.3" "../config"; EvCompose "trainer";
         EvPrintCfg cfg], Raise e))
  /\ (forall l,
        cfg_path cfg ["env"; "train"; "size"] = Ok (NList l) ->
        length l <> 2%nat ->
        main_body W args
        = ([EvHydraInitialize "1.3" "../config"; EvCompose "trainer";
            EvPrintCfg cfg], Raise (ValueError "unpack")))
  /\ ((exists e, cfg_path cfg ["env"; "train"; "size"] = Raise e)
      \/ (exists l, cfg_path cfg ["env"; "train"; "size"] = Ok (NList l)
                    /\ length l <> 2%nat) ->
      always before_model_resolution (main_body W args)).
Proof.
  intros Hc.
  assert (H1 : forall e,
             cfg_path cfg ["env"; "train"; "size"] = Raise e ->
             main_body W args
             = ([EvHydraInitialize "1.3" "../config"; EvCompose "trainer";
                 EvPrintCfg cfg], Raise e)).
  { intros e He; unfold main_body.
    run_binds.
    all: try reflexivity.
    unfold lift; rewrite He; reflexivity. }
  assert (H2 : forall l,
             cfg_path cfg ["env"; "train"; "size"] = Ok (NList l) ->
             length l <> 2%nat ->
             main_body W args
             = ([EvHydraInitialize "1.3" "../config"; EvCompose "trainer";
                 EvPrintCfg cfg], Raise (ValueError "unpack"))).
  { intros l Hs Hl; unfold main_body.
    run_binds.
    all: try reflexivity.
    unfold lift; rewrite (window_size_wrong_length _ _ Hl); reflexivity. }
  split; [ exact H1 | split; [ exact H2 | ] ].
  intros [[e He] | (l & Hs & Hl)]; unfold always.
  - rewrite (H1 e He); repeat constructor.
  - rewrite (H2 l Hs Hl); repeat constructor.
Qed.

Lemma bad_base_size_fails_before_prompt_witness :
  main_body Faulty.short_size_world defaults
  = ([EvHydraInitialize "1.3" "../config"; EvCompose "trainer";
      EvPrintCfg (Demo.trainer (NList [NInt 64]))],
     Raise (ValueError "unpack")).
Proof.
  destruct (bad_base_size_fails_before_prompt Faulty.short_size_world
              defaults (Demo.trainer (NList [NInt 64])) eq_refl)
    as (_ & H & _).
  apply (H [NInt 64]); [ reflexivity | discriminate ].
Defined.

(** X10.  A whole session.  If the command line is accepted, the
    configuration composes, the window size can be computed and
    [prepare_play_mode] returns the play environment [pe], then [main]
    builds one game from [pe], the window size, [--mouse-multiplier],
    [--fps], [verbose = not --no-header] and [use_colab = --colab], runs
    it as its last step, and ends the way [game.run()] ends. *)
Theorem main_session (W : World) (argv : list string) (args : Namespace)
    (cfg size : node) (size_h size_w : Z) (t : list event) (cfg' : node)
    (pe : PlayEnv) :
  parse_args argv = Ok args ->
  hydra_compose W "trainer" = Ok cfg ->
  cfg_path cfg ["env"; "train"; "size"] = Ok size ->
  window_size size (size_multiplier args) = Ok (size_h, size_w) ->
  prepare_play_mode W cfg args = (t, Ok (cfg', pe)) ->
  let game :=
    {| game_env := pe; game_size := (size_h, size_w);
       game_mouse_multiplier := mouse_multiplier args; game_fps := fps args;
       game_verbose := negb (no_header args); game_use_colab := colab args |} in
  main W argv
  = ((trace (check_args args)
      ++ [EvHydraInitialize "1.3" "../config"; EvCompose "trainer";
          EvPrintCfg cfg]
      ++ t ++ [EvGameInit game; EvGameRun])%list,
     Game_run W game).
Proof.
  intros Hp Hc Hs Hw Hrun game.
  rewrite main_run, Hp.
  assert (Hb : main_body W args
               = (([EvHydraInitialize "1.3" "../config"; EvCompose "trainer";
                    EvPrintCfg cfg]
                   ++ t ++ [EvGameInit game; EvGameRun])%list,
                  Game_run W game)).
  { assert (exists T,
              main_body W args = (T, Game_run W game)
              /\ T = ([EvHydraInitialize "1.3" "../config";
                       EvCompose "trainer"; EvPrintCfg cfg]
                      ++ t ++ [EvGameInit game; EvGameRun])%list)
      as (T & -> & ->); [ | reflexivity ].
    assert (Hout : outcome (prepare_play_mode W cfg args) = Ok (cfg', pe))
      by (rewrite Hrun; reflexivity).
    eexists; split.
    - unfold main_body.
      run_binds.
      all: reflexivity.
    - rewrite Hrun; cbn [trace fst app emit call lift]; reflexivity. }
  rewrite Hb; reflexivity.
Qed.

Lemma main_session_witness :
  exists t g,
    main Demo.cuda_world ["--fps"; "30"; "--no-header"; "--model"; "/models"]
    = (t ++ [EvGameInit g; EvGameRun], Ok tt)%list
    /\ game_fps g = 30 /\ game_verbose g = false
    /\ game_size g = (128, 128) /\ game_mouse_multiplier g = 10.
Proof.
  eassert (Hp : parse_args ["--fps"; "30"; "--no-header"; "--model"; "/models"]
                = Ok _) by (vm_compute; reflexivity).
  match type of Hp with
  | _ = Ok ?a =>
      eassert (Hrun : prepare_play_mode Demo.cuda_world
                        (Demo.trainer (NInt 64)) a
                      = (_, Ok (_, _))) by (vm_compute; reflexivity)
  end.
  pose proof (main_session Demo.cuda_world _ _ _ _ _ _ _ _ _
                Hp eq_refl eq_refl eq_refl Hrun) as H.
  cbv zeta in H.
  eexists; eexists; split.
  - rewrite H, !app_assoc; reflexivity.
  - repeat split.
Defined.

(* ===================================================================== *)
(** ** How the model name enters the paths (lines 54-59) *)

Lemma joinpath_absolute p s :
  PurePath.parse_root s <> "" -> p // s = PurePath.of_string s.
Proof.
  intros H; unfold PurePath.joinpath.
  destruct (String.eqb_spec (PurePath.root (PurePath.of_string s)) "");
    [ contradiction | reflexivity ].
Qed.

Lemma parse_root_slash s : PurePath.parse_root (String "/" s) <> "".
Proof.
  destruct s as [ | b [ | c s ] ]; simpl;
    repeat match goal with
           | |- context [Ascii.eqb ?x ?y] => destruct (Ascii.eqb x y)
           end; discriminate.
Qed.



(* ===================================================================== *)
(** ** The context length, from the documents to the constructor
       (lines 76-80) *)

Lemma maybe_compile_total device args wm :
  exists wm', outcome (maybe_compile device args wm) = Ok wm'.
Proof. rewrite maybe_compile_run; destruct (_ && _); simpl; eauto. Qed.

(** After the two overrides, [cfg.agent.ks] is read in the agent
    document. *)
Lemma cfg_path_agent d agent_doc env_doc ks :
  cfg_path (NDict (assoc_set (assoc_set d "agent" agent_doc) "env" env_doc))
           ("agent" :: ks)
  = cfg_path agent_doc ks.
Proof.
  simpl; rewrite assoc_get_set_other by discriminate.
  rewrite assoc_get_set; reflexivity.
Qed.

(** C2.  Let the bundle be located, its two documents load, the
    identifier agree, the agent be built and its checkpoint load, and let
    the agent document declare the conditioning length [a] for the
    denoiser and, when the agent has an upsampler, [b] for the upsampler.
    Then the context length resolved on lines 76-78 is [max a b] with an
    upsampler ([a] when [a = b]) and [a] without one, and
    [prepare_play_mode] goes on to construct the world environment, once,
    with that length; if the constructor returns, the run returns a play
    environment holding it. *)
Theorem context_length_is_max (W : World) (d : list (string * node))
    (args : Namespace) (path_hf : Path)
    (agent_doc env_doc id num_actions cfg_wm wm_env_cfg : node)
    (agent0 : Agent) (device : Device) (a b : Z) :
  let m := stdin_line W in
  let agent := Agent_eval (Agent_to agent0 device) in
  let sl :=
    NInt (match upsampler agent0 with Some _ => Z.max a b | None => a end) in
  let wm := new_wm_env agent (path_hf // (m ++ "/spawn")) sl wm_env_cfg in
  outcome (resolve_path_hf W args m) = Ok (PyPath path_hf) ->
  OmegaConf_load W (path_hf // (m ++ "/config/agent/" ++ m ++ ".yaml"))
  = Ok agent_doc ->
  OmegaConf_load W (path_hf // (m ++ "/config/env/" ++ m ++ ".yaml"))
  = Ok env_doc ->
  outcome (select_device W) = Ok device ->
  cfg_path env_doc ["train"; "id"] = Ok id ->
  node_eq_str id m = true ->
  cfg_path env_doc ["num_actions"] = Ok num_actions ->
  Agent_init W agent_doc num_actions = Ok agent0 ->
  Agent_load W agent (path_hf // (m ++ "/model/" ++ m ++ ".pt")) = Ok tt ->
  cfg_path agent_doc ["denoiser"; "inner_model"; "num_steps_conditioning"]
  = Ok (NInt a) ->
  (upsampler agent0 <> None ->
   cfg_path agent_doc ["upsampler"; "inner_model"; "num_steps_conditioning"]
   = Ok (NInt b)) ->
  assoc_get d "world_model_env" = Some cfg_wm ->
  instantiate W cfg_wm 1 = Ok wm_env_cfg ->
  (a = b -> sl = NInt a)
  /\ context_length
       (NDict (assoc_set (assoc_set d "agent" agent_doc) "env" env_doc)) agent
     = Ok sl
  /\ (exists t1 t2,
        trace (prepare_play_mode W (NDict d) args)
        = (t1 ++ EvWorldModelEnvInit wm :: t2)%list)
  /\ (forall wm',
        In (EvWorldModelEnvInit wm') (trace (prepare_play_mode W (NDict d) args))
        -> wm' = wm)
  /\ (WorldModelEnv_init W wm = Ok tt ->
      exists cfg' pe,
        outcome (prepare_play_mode W (NDict d) args) = Ok (cfg', pe)
        /\ wm_seq_length (pe_wm_env pe) = sl).
Proof.
  intros m agent sl wm Hp Hagent Henv Hdev Hid Heq Hnum Hinit Hload Ha Hb
         Hwm Hinst.
  set (cfg2 := NDict (assoc_set (assoc_set d "agent" agent_doc) "env" env_doc)).
  assert (Hid2 : cfg_path cfg2 ["env"; "train"; "id"] = Ok id)
    by (unfold cfg2; rewrite cfg_path_env; exact Hid).
  assert (Hnum2 : cfg_path cfg2 ["env"; "num_actions"] = Ok num_actions)
    by (unfold cfg2; rewrite cfg_path_env; exact Hnum).
  assert (Hag2 : cfg_get cfg2 "agent" = Ok agent_doc).
  { unfold cfg2; simpl.
    rewrite assoc_get_set_other by discriminate.
    rewrite assoc_get_set; reflexivity. }
  assert (Hwm2 : cfg_get cfg2 "world_model_env" = Ok cfg_wm).
  { unfold cfg2; simpl.
    rewrite !assoc_get_set_other by discriminate; rewrite Hwm; reflexivity. }
  assert (Hcl : context_length cfg2 agent = Ok sl).
  { unfold context_length, cfg2, sl; rewrite cfg_path_agent, Ha.
    change (upsampler agent) with (upsampler agent0).
    destruct (upsampler agent0) as [u | ]; [ | reflexivity ].
    rewrite cfg_path_agent, Hb by discriminate; apply py_max_int. }
  destruct (maybe_compile_total device args wm) as [wm_env Hmc].
  split.
  { intros ->; unfold sl.
    destruct (upsampler agent0); rewrite ?Z.max_id; reflexivity. }
  split; [ exact Hcl | ].
  assert (Hfind :
            forall t2,
              In (EvWorldModelEnvInit wm)
                 (EvInput "Model name: " :: trace (resolve_path_hf W args m)
                  ++ EvOmegaConfLoad
                       (path_hf // (m ++ "/config/agent/" ++ m ++ ".yaml"))
                  :: EvOmegaConfLoad
                       (path_hf // (m ++ "/config/env/" ++ m ++ ".yaml"))
                  :: trace (select_device W)
                  ++ EvAgentInit agent_doc num_actions :: EvAgentTo device
                  :: EvAgentEval
                  :: EvAgentLoad (path_hf // (m ++ "/model/" ++ m ++ ".pt"))
                  :: EvInstantiate cfg_wm 1 :: EvWorldModelEnvInit wm :: t2)%list).
  { intros t2; right; apply in_or_app; right.
    right; right; apply in_or_app; right; simpl; auto 10. }
  destruct (WorldModelEnv_init W wm) as [ [] | e ] eqn:Hwinit.
  - (* the constructor returns: the whole run returns *)
    eassert (Hrun : prepare_play_mode W (NDict d) args = (_, Ok _)).
    { unfold prepare_play_mode.
      run_binds.
      all: try reflexivity.
      unfold m in Heq; rewrite Heq.
      run_binds.
      all: try reflexivity. }
    rewrite Hrun; cbn [trace outcome fst snd app call emit lift ret].
    split; [ apply in_split, Hfind | split ].
    + intros wm' Hin.
      rewrite select_device_run, maybe_compile_run in Hin.
      destruct (resolve_path_hf_trace W args (stdin_line W)) as [E | E];
        rewrite E in Hin;
        destruct (cuda_is_available W), (mps_is_available W),
                 ((device_type device =? "cuda")%string && compile args);
        simpl in Hin;
        repeat (destruct Hin as [Hin | Hin];
                [ try discriminate Hin; injection Hin as <-; reflexivity | ]);
        contradiction.
    + intros _; do 2 eexists; split; [ reflexivity | ].
      cbn [pe_wm_env].
      exact (proj1 (maybe_compile_frame _ _ _ _ Hmc)).
  - (* the constructor raises: the run ends there *)
    eassert (Hrun : prepare_play_mode W (NDict d) args = (_, Raise e)).
    { unfold prepare_play_mode.
      run_binds.
      all: try reflexivity.
      unfold m in Heq; rewrite Heq.
      run_binds.
      all: try reflexivity.
      change (WorldModelEnv_init W _) with (WorldModelEnv_init W wm).
      rewrite Hwinit; reflexivity. }
    rewrite Hrun; cbn [trace outcome fst snd app call emit lift ret].
    split; [ apply in_split, Hfind | split ].
    + intros wm' Hin.
      rewrite select_device_run in Hin.
      destruct (resolve_path_hf_trace W args (stdin_line W)) as [E | E];
        rewrite E in Hin;
        destruct (cuda_is_available W), (mps_is_available W);
        simpl in Hin;
        repeat (destruct Hin as [Hin | Hin];
                [ try discriminate Hin; injection Hin as <-; reflexivity | ]);
        contradiction.
    + discriminate.
Qed.

(** A bundle whose upsampler looks further back than its denoiser (1 and
    4): the length is the upsampler's.  A bundle without upsampler
    (denoiser 4): the length is the denoiser's. *)
Lemma context_length_is_max_witness :
  (exists cfg' pe,
     outcome (prepare_play_mode Bundles.long_upsampler_world
                (Demo.trainer (NInt 64)) Demo.local_args) = Ok (cfg', pe)
     /\ upsampler (pe_agent pe) <> None
     /\ wm_seq_length (pe_wm_env pe) = NInt 4)
  /\ (exists cfg' pe,
        outcome (prepare_play_mode Bundles.denoiser_only_world
                   (Demo.trainer (NInt 64)) Demo.local_args) = Ok (cfg', pe)
        /\ upsampler (pe_agent pe) = None
        /\ wm_seq_length (pe_wm_env pe) = NInt 4).
Proof.
  split.
  - edestruct (context_length_is_max Bundles.long_upsampler_world
                 (Demo.trainer_items (NInt 64)) Demo.local_args Demo.models)
      with (a := 1) (b := 4) as (_ & _ & _ & _ & Hret);
      try reflexivity.
    destruct (Hret eq_refl) as (cfg' & pe & Hrun & Hsl).
    exists cfg', pe; split; [ exact Hrun | ].
    split; [ | exact Hsl ].
    vm_compute in Hrun; injection Hrun as _ <-; discriminate.
  - edestruct (context_length_is_max Bundles.denoiser_only_world
                 (Demo.trainer_items (NInt 64)) Demo.local_args Demo.models)
      with (a := 4) (b := 0) as (_ & _ & _ & _ & Hret);
      try reflexivity; [ intros H; exfalso; apply H; reflexivity | ].
    destruct (Hret eq_refl) as (cfg' & pe & Hrun & Hsl).
    exists cfg', pe; split; [ exact Hrun | ].
    split; [ | exact Hsl ].
    vm_compute in Hrun; injection Hrun as _ <-; reflexivity.
Defined.
